(** * Pallet-label QR decoder and scan store (main.py)

    A shallow embedding of the decoding and storage core of [main.py]:
    [parse_qr_payload], [save_scan], [fetch_latest_scans] and the payload
    built by [generar_y_imprimir_qrs].

    Python values are embedded as follows.
    - A [str] is the list of its Unicode code points ([list N]).
    - An [int] is a [Z] (Python integers are unbounded).
    - The dict [data] of the decoder is a [gmap] from keys to values.
    - An exception is a value of [exn]; a function that may raise returns
      a [result].
    - The table [pallet_scans] is the list of its rows in rowid order.
    - Binding the parameters of the [INSERT] follows [sqlite3]: an [int]
      outside the signed 64-bit range raises [OverflowError], a [str]
      with a lone surrogate raises [UnicodeEncodeError].

    I/O faults of the database file are not modelled. *)

From Stdlib Require Import ZArith NArith Ascii String List Lia Permutation.
From stdpp Require Import base option list gmap.

Local Open Scope N_scope.

(** ** Strings *)

Abbreviation pstr := (list N).

(** Literals: the code points of an ASCII literal of the source. *)
Definition str (s : string) : pstr := map N_of_ascii (list_ascii_of_string s).
Definition chr (a : ascii) : N := N_of_ascii a.

Definition c_pipe  : N := Eval cbv in chr "|".
Definition c_eq    : N := Eval cbv in chr "=".
Definition c_colon : N := Eval cbv in chr ":".
Definition c_slash : N := Eval cbv in chr "/".
Definition c_minus : N := Eval cbv in chr "-".
Definition c_plus  : N := Eval cbv in chr "+".
Definition c_under : N := Eval cbv in chr "_".
Definition c_space : N := Eval cbv in chr " ".
Definition c_zero  : N := Eval cbv in chr "0".
Definition c_nl    : N := 10.
Definition c_cr    : N := 13.

(** [c in s] for a one-character [c]. *)
Definition contains (c : N) (s : pstr) : bool := existsb (N.eqb c) s.

(** [str.isspace] on one code point (the interpreter's whitespace table). *)
Definition py_isspace (c : N) : bool :=
  ((9 <=? c) && (c <=? 13)) || ((28 <=? c) && (c <=? 32))
  || (c =? 133) || (c =? 160) || (c =? 5760)
  || ((8192 <=? c) && (c <=? 8202))
  || (c =? 8232) || (c =? 8233) || (c =? 8239) || (c =? 8287) || (c =? 12288).

(** Line boundaries of [str.splitlines]. *)
Definition py_islinebreak (c : N) : bool :=
  ((10 <=? c) && (c <=? 13)) || ((28 <=? c) && (c <=? 30))
  || (c =? 133) || (c =? 8232) || (c =? 8233).

Fixpoint drop_while (p : N -> bool) (s : pstr) : pstr :=
  match s with
  | [] => []
  | c :: s' => if p c then drop_while p s' else s
  end.

Definition lstrip (s : pstr) : pstr := drop_while py_isspace s.
Definition rstrip (s : pstr) : pstr := rev (drop_while py_isspace (rev s)).
(** [s.strip()] *)
Definition strip (s : pstr) : pstr := rstrip (lstrip s).

(** [s.split(c)] for a one-character separator. *)
Fixpoint split_on (c : N) (s : pstr) : list pstr :=
  match s with
  | [] => [[]]
  | x :: s' =>
      if x =? c then [] :: split_on c s'
      else match split_on c s' with
           | h :: t => (x :: h) :: t
           | [] => [[x]]
           end
  end.

(** [s.split(c, 1)] when it has two elements, that is when [c in s]. *)
Fixpoint split_once (c : N) (s : pstr) : option (pstr * pstr) :=
  match s with
  | [] => None
  | x :: s' =>
      if x =? c then Some ([], s')
      else match split_once c s' with
           | Some (k, v) => Some (x :: k, v)
           | None => None
           end
  end.

(** [c.join(parts)] *)
Fixpoint join (c : N) (parts : list pstr) : pstr :=
  match parts with
  | [] => []
  | [p] => p
  | p :: ps => p ++ c :: join c ps
  end.

(** [s.splitlines()]: [cur] is the line being read, in reverse; [after_cr]
    tells that the previous character was a carriage return, so that a line
    feed that follows belongs to the same boundary. *)
Fixpoint splitlines_go (cur : pstr) (after_cr : bool) (s : pstr) : list pstr :=
  match s with
  | [] => match cur with [] => [] | _ => [rev cur] end
  | c :: s' =>
      if after_cr && (c =? c_nl) then splitlines_go cur false s'
      else if py_islinebreak c then rev cur :: splitlines_go [] (c =? c_cr) s'
      else splitlines_go (c :: cur) false s'
  end.
Definition splitlines (s : pstr) : list pstr := splitlines_go [] false s.

(** [s.startswith(p)] *)
Fixpoint startswith (s p : pstr) : bool :=
  match p, s with
  | [], _ => true
  | _ :: _, [] => false
  | a :: p', b :: s' => (a =? b) && startswith s' p'
  end.

(** ** The interpreter's Unicode tables

    [str.lower] and the decimal value of a non-ASCII digit come from the
    Unicode database of the interpreter; the development is parametric in
    both. *)
Class Unicode := {
  (** [Py_UNICODE_TODECIMAL] on code points from 128 on *)
  to_decimal : N -> option N;
  (** [str.lower] *)
  lower : pstr -> pstr
}.

(** ASCII and Latin-1 letters, the part of the tables the labels use. *)
Definition lower_latin1 (c : N) : N :=
  if ((65 <=? c) && (c <=? 90)) || ((192 <=? c) && (c <=? 222) && negb (c =? 215))
  then c + 32 else c.
Definition latin1 : Unicode :=
  {| to_decimal := fun _ => None; lower := map lower_latin1 |}.

(** Decimal value of a digit: ASCII digits, and beyond ASCII what the
    Unicode database says (a value below ten). *)
Definition in_range (lo hi c : N) : bool := (lo <=? c) && (c <=? hi).
Definition digit_value `{Unicode} (c : N) : option N :=
  if c <? 128 then (if in_range 48 57 c then Some (c - 48) else None)
  else match to_decimal c with
       | Some d => if d <? 10 then Some d else None
       | None => None
       end.

(** ** Integers and their decimal text *)

(** The decimal digits of a natural number, most significant first. *)
Fixpoint dec_digits (fuel : nat) (n : N) (acc : pstr) : pstr :=
  match fuel with
  | O => acc
  | S f =>
      let acc' := (48 + n mod 10) :: acc in
      if n <? 10 then acc' else dec_digits f (n / 10) acc'
  end.
Definition str_N (n : N) : pstr := dec_digits (S (N.to_nat (N.log2 n))) n [].

(** [str(n)] for an [int] *)
Definition py_str_int (n : Z) : pstr :=
  if (n <? 0)%Z then c_minus :: str_N (Z.to_N (- n)) else str_N (Z.to_N n).

Definition zfill (width : nat) (d : pstr) : pstr :=
  repeat c_zero (width - length d) ++ d.

(** [f"{n:0wd}"]: zero padding to [w] characters, the sign included. *)
Definition format_0d (width : nat) (n : Z) : pstr :=
  if (n <? 0)%Z then c_minus :: zfill (width - 1) (str_N (Z.to_N (- n)))
  else zfill width (str_N (Z.to_N n)).

(** The C-level [Py_ISSPACE] that [int()] skips around the number. *)
Definition py_ctype_space (c : N) : bool := in_range 9 13 c || (c =? 32).

(** [int()] first rewrites its argument to ASCII: characters below 127 stay,
    other whitespace becomes a space, other digits their ASCII digit; any
    other character makes the conversion fail. *)
Definition int_ascii `{Unicode} (c : N) : option N :=
  if c <? 127 then Some c
  else if py_isspace c then Some c_space
  else match digit_value c with
       | Some d => Some (48 + d)
       | None => None
       end.

(** The digits of the literal: single underscores may separate them.
    [prev_us] tells that the previous character was an underscore. *)
Fixpoint scan_digits (prev_us : bool) (acc : N) (s : pstr) : option (N * pstr) :=
  match s with
  | [] => if prev_us then None else Some (acc, [])
  | c :: s' =>
      if in_range 48 57 c then scan_digits false (10 * acc + (c - 48)) s'
      else if c =? c_under then
        (if prev_us then None else scan_digits true acc s')
      else if prev_us then None else Some (acc, s)
  end.

(** The number after the sign: digits, then nothing but whitespace. *)
Definition int_unsigned (t : pstr) : option N :=
  match t with
  | c :: _ =>
      if in_range 48 57 c then
        match scan_digits false 0 t with
        | Some (n, rest) => if forallb py_ctype_space rest then Some n else None
        | None => None
        end
      else None
  | [] => None
  end.

(** [int(s)] in base ten; [None] stands for its [ValueError]. The
    interpreter's cap on the number of digits is taken as switched off. *)
Definition py_int `{Unicode} (s : pstr) : option Z :=
  match mapM int_ascii s with
  | None => None
  | Some t =>
      match drop_while py_ctype_space t with
      | c :: r =>
          if c =? c_plus then Z.of_N <$> int_unsigned r
          else if c =? c_minus then (fun n => - Z.of_N n)%Z <$> int_unsigned r
          else Z.of_N <$> int_unsigned (c :: r)
      | [] => None
      end
  end.

(** ** Dates *)

Record date := { year : N; month : N; day : N }.

Definition is_leap (y : N) : bool :=
  (y mod 4 =? 0) && (negb (y mod 100 =? 0) || (y mod 400 =? 0)).

Definition days_in_month (y m : N) : N :=
  if m =? 2 then (if is_leap y then 29 else 28)
  else if (m =? 4) || (m =? 6) || (m =? 9) || (m =? 11) then 30 else 31.

(** The directives of [strptime] as the regular expressions it compiles
    them to; each function gives the number read from a whole field. *)
Definition re_d `{Unicode} (p : pstr) : option N :=
  match p with
  | [a] => if in_range 49 57 a then Some (a - 48) else None
  | [a; b] =>
      if (a =? 51) && in_range 48 49 b then Some (30 + (b - 48))
      else if in_range 49 50 a then
        match digit_value b with
        | Some d => Some (10 * (a - 48) + d)
        | None => None
        end
      else if ((a =? 48) || (a =? 32)) && in_range 49 57 b then Some (b - 48)
      else None
  | _ => None
  end.

Definition re_m (p : pstr) : option N :=
  match p with
  | [a] => if in_range 49 57 a then Some (a - 48) else None
  | [a; b] =>
      if (a =? 49) && in_range 48 50 b then Some (10 + (b - 48))
      else if (a =? 48) && in_range 49 57 b then Some (b - 48)
      else None
  | _ => None
  end.

Definition re_y `{Unicode} (p : pstr) : option N :=
  match p with
  | [a; b] =>
      match digit_value a, digit_value b with
      | Some x, Some y => Some (10 * x + y)
      | _, _ => None
      end
  | _ => None
  end.

(** [datetime.strptime(s, "%d/%m/%y").date()]; [None] stands for its
    [ValueError]. A two-digit year up to 68 is in the 2000s. *)
Definition strptime_dmy `{Unicode} (s : pstr) : option date :=
  match split_on c_slash s with
  | [d; m; y] =>
      match re_d d, re_m m, re_y y with
      | Some dd, Some mm, Some yy =>
          let yyyy := if yy <=? 68 then yy + 2000 else yy + 1900 in
          if dd <=? days_in_month yyyy mm
          then Some {| year := yyyy; month := mm; day := dd |}
          else None
      | _, _, _ => None
      end
  | _ => None
  end.

Definition pad (width : nat) (n : N) : pstr := zfill width (str_N n).

(** [d.isoformat()], also [strftime("%Y-%m-%d")] *)
Definition isoformat (d : date) : pstr :=
  pad 4 (year d) ++ c_minus :: pad 2 (month d) ++ c_minus :: pad 2 (day d).

(** ** Results and exceptions *)

(** The decoder raises [ValueError] at four places; each carries the
    failure it reports. An [IndexError] comes from a subscript;
    [OverflowError] and [UnicodeEncodeError] come from binding a value to
    the [INSERT]. *)
Inductive DecodeFailure :=
  | UnrecognizedFormat
  | MissingFields (missing : list pstr)
  | InvalidSerial (ns : pstr)
  | LegacyFieldsMissing.

Inductive exn :=
  | ValueError (f : DecodeFailure)
  | IndexError
  | OverflowError
  | UnicodeEncodeError.

Inductive result (A : Type) :=
  | Ok (a : A)
  | Raise (e : exn).
Arguments Ok {A} a.
Arguments Raise {A} e.

#[export] Instance result_ret : MRet result := fun A a => Ok a.
#[export] Instance result_bind : MBind result := fun A B f r =>
  match r with
  | Ok a => f a
  | Raise e => Raise e
  end.

(** ** The decoder: [parse_qr_payload] *)

(** The record the decoder returns (a dict with these six keys). *)
Record scan := {
  descripcion : pstr;
  nro_serie : Z;
  id_producto : pstr;
  lote : pstr;
  creacion : pstr;
  vencimiento : pstr
}.

Definition k_NS  : pstr := Eval cbv in str "NS".
Definition k_PRD : pstr := Eval cbv in str "PRD".
Definition k_DSC : pstr := Eval cbv in str "DSC".
Definition k_LOT : pstr := Eval cbv in str "LOT".
Definition k_FEC : pstr := Eval cbv in str "FEC".
Definition k_VTO : pstr := Eval cbv in str "VTO".

Definition required : list pstr := [k_NS; k_PRD; k_DSC; k_LOT; k_FEC; k_VTO].

(** A part with an equals sign gives a key and a value:
    [k, v = p.split("=", 1)], then [k.strip()] and [v.strip()]. *)
Definition key_value (p : pstr) : option (pstr * pstr) :=
  match split_once c_eq p with
  | Some (k, v) => Some (strip k, strip v)
  | None => None
  end.

(** One turn of the loop over [parts]: [data[k.strip()] = v.strip()]. *)
Definition add_part (data : gmap pstr pstr) (p : pstr) : gmap pstr pstr :=
  match key_value p with
  | Some (k, v) => <[k := v]> data
  | None => data
  end.

Definition build_data (parts : list pstr) : gmap pstr pstr :=
  foldl add_part ∅ parts.

(** [k not in data or not data[k]] *)
Definition is_missing (data : gmap pstr pstr) (k : pstr) : bool :=
  match data !! k with
  | Some (_ :: _) => false
  | _ => true
  end.

(** [int(ns)] in the returned dict. *)
Definition int_field `{Unicode} (ns : pstr) : result Z :=
  match py_int ns with
  | Some n => Ok n
  | None => Raise (ValueError (InvalidSerial ns))
  end.

(** The new format after the loop: the check of the required keys and
    the returned dict. *)
Definition primary_fields `{Unicode} (data : gmap pstr pstr) : result scan :=
  match List.filter (is_missing data) required with
  | [] =>
      n ← int_field (data !!! k_NS);
      Ok {| descripcion := data !!! k_DSC;
            nro_serie := n;
            id_producto := data !!! k_PRD;
            lote := data !!! k_LOT;
            creacion := data !!! k_FEC;
            vencimiento := data !!! k_VTO |}
  | missing => Raise (ValueError (MissingFields missing))
  end.

(** The branch of the new format; [raw] is stripped already. *)
Definition parse_primary `{Unicode} (raw : pstr) : result scan :=
  primary_fields (build_data (split_on c_pipe raw)).

Definition nonempty (s : pstr) : bool :=
  match s with [] => false | _ => true end.

(** [[l.strip() for l in raw.splitlines() if l.strip()]] *)
Definition legacy_lines (raw : pstr) : list pstr :=
  List.filter nonempty (map strip (splitlines raw)).

(** [pick]: the text after the first colon of the first line that starts
    with the prefix, case apart. The subscript [[1]] raises when that line
    has no colon. *)
Fixpoint pick `{Unicode} (lines : list pstr) (prefix : pstr) : result (option pstr) :=
  match lines with
  | [] => Ok None
  | l :: ls =>
      if startswith (lower l) (lower prefix) then
        match split_once c_colon l with
        | Some (_, v) => Ok (Some (strip v))
        | None => Raise IndexError
        end
      else pick ls prefix
  end.

(** Truth value of a [str] or [None]. *)
Definition truthy (o : option pstr) : bool :=
  match o with
  | Some (_ :: _) => true
  | _ => false
  end.

(** [a or b]: [b] is evaluated only when [a] is false. *)
Definition py_or (a b : result (option pstr)) : result (option pstr) :=
  x ← a; if truthy x then Ok x else b.

Definition p_num_de_serie : pstr := Eval cbv in str "Num de serie".
Definition p_n_de_serie   : pstr := Eval cbv in str "N de serie".
Definition p_no_de_serie  : pstr := Eval cbv in str "N" ++ 176 :: str " de serie".
Definition p_id_producto  : pstr := Eval cbv in str "ID producto".
Definition p_lote         : pstr := Eval cbv in str "Lote".
Definition p_creacion     : pstr := Eval cbv in str "Creacion".
Definition p_creacion_ac  : pstr := Eval cbv in str "Creaci" ++ 243 :: str "n".
Definition p_vencimiento  : pstr := Eval cbv in str "Vencimiento".

Definition known_prefixes : list pstr := Eval cbv in
  [ str "num de serie"; str "n de serie"; str "n" ++ 176 :: str " de serie";
    str "id producto"; str "lote"; str "creacion";
    str "creaci" ++ 243 :: str "n"; str "vencimiento" ].

(** [normalize_date] *)
Definition normalize_date `{Unicode} (s : pstr) : pstr :=
  let s := strip s in
  if contains c_slash s then
    match strptime_dmy s with
    | Some d => isoformat d
    | None => s
    end
  else s.

Definition unwrap (o : option pstr) : pstr := default [] o.

(** The branch of the old format; [raw] is stripped already. *)
Definition parse_legacy `{Unicode} (raw : pstr) : result scan :=
  let lines := legacy_lines raw in
  ns ← py_or (pick lines p_num_de_serie)
         (py_or (pick lines p_n_de_serie) (pick lines p_no_de_serie));
  prd ← pick lines p_id_producto;
  lote ← pick lines p_lote;
  cre ← py_or (pick lines p_creacion) (pick lines p_creacion_ac);
  vto ← pick lines p_vencimiento;
  let desc_candidates :=
    List.filter (fun l => negb (existsb (startswith (lower l)) known_prefixes)) lines in
  let desc := match desc_candidates with d :: _ => d | [] => [] end in
  if negb (forallb truthy [ns; prd; lote; cre; vto]) || negb (nonempty desc)
  then Raise (ValueError LegacyFieldsMissing)
  else
    n ← int_field (unwrap ns);
    Ok {| descripcion := desc;
          nro_serie := n;
          id_producto := unwrap prd;
          lote := unwrap lote;
          creacion := normalize_date (unwrap cre);
          vencimiento := normalize_date (unwrap vto) |}.

Definition parse_qr_payload `{Unicode} (raw : pstr) : result scan :=
  let raw := strip raw in
  if contains c_pipe raw && contains c_eq raw then parse_primary raw
  else if contains c_nl raw then parse_legacy raw
  else Raise (ValueError UnrecognizedFormat).

(** ** The store: [init_db], [save_scan], [fetch_latest_scans] *)

(** The rows of [pallet_scans], oldest first: a row gets the next rowid
    when it is inserted, and no row is ever deleted or updated. *)
Abbreviation store := (list scan).

(** [UNIQUE(id_producto, nro_serie, lote)] *)
Definition same_key (a b : scan) : bool :=
  bool_decide (id_producto a = id_producto b)
  && (nro_serie a =? nro_serie b)%Z
  && bool_decide (lote a = lote b).

(** [CREATE TABLE IF NOT EXISTS]: the table of an existing file is kept,
    a new one is empty. *)
Definition init_db (file : option store) : store := default [] file.

(** [sqlite3] binds the parameters of a statement before it runs it.
    A [str] is bound as its UTF-8 encoding, which does not exist when
    the text has a lone surrogate; an [int] is bound as a signed 64-bit
    INTEGER. *)
Definition is_surrogate (c : N) : bool := in_range 55296 57343 c.
Definition encodable (s : pstr) : bool := negb (existsb is_surrogate s).
Definition int64 (n : Z) : bool :=
  ((- 2 ^ 63 <=? n) && (n <? 2 ^ 63))%Z.

Definition bind_text (s : pstr) : result unit :=
  if encodable s then Ok tt else Raise UnicodeEncodeError.
Definition bind_int (n : Z) : result unit :=
  if int64 n then Ok tt else Raise OverflowError.

(** The six parameters, in the order of the [VALUES] tuple. *)
Definition bind_parameters (r : scan) : result unit :=
  _ ← bind_text (descripcion r);
  _ ← bind_int (nro_serie r);
  _ ← bind_text (id_producto r);
  _ ← bind_text (lote r);
  _ ← bind_text (creacion r);
  bind_text (vencimiento r).

(** The [INSERT]: a parameter that cannot be bound raises before the
    statement runs; [Ok None] stands for the [sqlite3.IntegrityError] of
    the uniqueness constraint, [Ok (Some db')] for the table with the new
    row. *)
Definition insert_scan (db : store) (r : scan) : result (option store) :=
  _ ← bind_parameters r;
  Ok (if existsb (same_key r) db then None else Some (db ++ [r])).

Inductive status := OK | DUP.

Definition msg_tail (data : scan) : pstr :=
  id_producto data ++ str " - Serie " ++ py_str_int (nro_serie data)
  ++ str " - Lote " ++ lote data.
Definition msg_ok (data : scan) : pstr :=
  9989 :: str " Guardado: " ++ msg_tail data.
Definition msg_dup (data : scan) : pstr :=
  9888 :: 65039 :: str " YA REGISTRADO: " ++ msg_tail data.

Definition save_scan `{Unicode} (db : store) (raw_payload : pstr)
  : result (store * (status * pstr)) :=
  data ← parse_qr_payload raw_payload;
  inserted ← insert_scan db data;
  match inserted with
  | Some db' => Ok (db', (OK, msg_ok data))
  | None => Ok (db, (DUP, msg_dup data))
  end.

(** [ORDER BY rowid DESC LIMIT ?]; a negative limit is no limit. *)
Definition fetch_latest_scans (db : store) (limit : Z) : list scan :=
  if (limit <? 0)%Z then rev db else take (Z.to_nat limit) (rev db).

(** [on_scan_return]: one scan event. An exception of [save_scan] is
    caught and shown; the table is as it was. *)
Definition on_scan_return `{Unicode} (db : store) (entry : pstr)
  : store * option (result (status * pstr)) :=
  let raw := strip entry in
  if nonempty raw then
    match save_scan db raw with
    | Ok (db', shown) => (db', Some (Ok shown))
    | Raise e => (db, Some (Raise e))
    end
  else (db, None).

(** A run of scan events: the table after them. *)
Definition scan_all `{Unicode} (db : store) (entries : list pstr) : store :=
  foldl (fun db entry => fst (on_scan_return db entry)) db entries.

(** The records of the events that were answered [OK], in order. *)
Fixpoint accepted `{Unicode} (db : store) (entries : list pstr) : list scan :=
  match entries with
  | [] => []
  | entry :: rest =>
      let '(db', shown) := on_scan_return db entry in
      match shown, parse_qr_payload (strip entry) with
      | Some (Ok (OK, _)), Ok r => r :: accepted db' rest
      | _, _ => accepted db' rest
      end
  end.

(** ** The label generator: the payload of [generar_y_imprimir_qrs] *)

(** [s.replace(a, b)] for one-character [a] and [b]. *)
Definition replace_char (a b : N) (s : pstr) : pstr :=
  map (fun c => if c =? a then b else c) s.

(** [desc_clean] *)
Definition desc_clean (descripcion : pstr) : pstr :=
  let d := strip (replace_char c_eq c_minus
                    (replace_char c_pipe c_slash
                       (replace_char c_nl c_space descripcion))) in
  if (90 <? length d)%nat then take 90 d else d.

(** [fecha + relativedelta(months=6)]: the day is cut to the length of the
    month reached. *)
Definition add_months6 (d : date) : date :=
  let m := month d + 6 in
  let '(y', m') := if 12 <? m then (year d + 1, m - 12) else (year d, m) in
  {| year := y'; month := m'; day := N.min (days_in_month y' m') (day d) |}.

(** [strftime("%d%m%y")] *)
Definition numero_lote (d : date) : pstr :=
  pad 2 (day d) ++ pad 2 (month d) ++ pad 2 (year d mod 100).

(** The f-string [payload_qr]. *)
Definition payload_qr (nro_serie : Z)
    (id_producto desc_clean numero_lote fec_iso vto_iso : pstr) : pstr :=
  str "NS=" ++ format_0d 6 nro_serie
  ++ str "|PRD=" ++ id_producto
  ++ str "|DSC=" ++ desc_clean
  ++ str "|LOT=" ++ numero_lote
  ++ str "|FEC=" ++ fec_iso
  ++ str "|VTO=" ++ vto_iso.

(** The payloads of one run: [ultimo] is the counter read from the
    catalogue, [id_producto] the text the f-string gives the product id,
    [fecha_actual] today's date. *)
Definition generar_payloads (ultimo : Z) (id_producto descripcion : pstr)
    (fecha_actual : date) (cantidad : nat) : list pstr :=
  map (fun i => payload_qr (ultimo + Z.of_nat i) id_producto
                  (desc_clean descripcion) (numero_lote fecha_actual)
                  (isoformat fecha_actual)
                  (isoformat (add_months6 fecha_actual)))
      (seq 1 cantidad).

(** ** Vocabulary of the statements *)

(** The dict [data] the decoder builds from an input of the new format. *)
Definition fields (raw : pstr) : gmap pstr pstr :=
  build_data (split_on c_pipe (strip raw)).

(** The segment [p] sets key [k]. *)
Definition has_key (k : pstr) (p : pstr) : bool :=
  match key_value p with
  | Some (k', _) => bool_decide (k' = k)
  | None => false
  end.

(** No segment has the separator in it. *)
Definition no_sep (c : N) (segs : list pstr) : Prop :=
  Forall (fun s => contains c s = false) segs.

(** The value that the last segment setting [k] gives it. *)
Definition last_value (k : pstr) (segs : list pstr) : option pstr :=
  match List.filter (has_key k) (rev segs) with
  | p :: _ => snd <$> key_value p
  | [] => None
  end.

(** Each required key is set by exactly one segment, to a value that is
    not empty. *)
Definition keys_once (segs : list pstr) : bool :=
  forallb (fun k =>
             match List.filter (has_key k) segs with
             | [p] => match key_value p with
                      | Some (_, _ :: _) => true
                      | _ => false
                      end
             | _ => false
             end) required.

(** The text handed to [int()]: the value of NS, or of the serial line of
    the old format. *)
Definition serial_text `{Unicode} (raw : pstr) : option pstr :=
  let raw := strip raw in
  if contains c_pipe raw && contains c_eq raw then
    build_data (split_on c_pipe raw) !! k_NS
  else
    let lines := legacy_lines raw in
    match py_or (pick lines p_num_de_serie)
            (py_or (pick lines p_n_de_serie) (pick lines p_no_de_serie)) with
    | Ok ns => ns
    | Raise _ => None
    end.

(** The shape YYYY-MM-DD: ten characters, digits but for the two hyphens. *)
Definition is_digit (c : N) : bool := in_range 48 57 c.
Definition iso_shape (s : pstr) : bool :=
  match s with
  | [y1; y2; y3; y4; h1; m1; m2; h2; d1; d2] =>
      forallb is_digit [y1; y2; y3; y4; m1; m2; d1; d2]
      && (h1 =? c_minus) && (h2 =? c_minus)
  | _ => false
  end.

(** A text that survives the new format as a value: not empty, without a
    pipe, without whitespace at either end. *)
Definition clean (s : pstr) : Prop :=
  s <> [] /\ contains c_pipe s = false /\ strip s = s.

(** The number a run of decimal digits stands for, read after [acc]. *)
Definition dec_step (acc c : N) : N := 10 * acc + (c - 48).
Definition dec_value (acc : N) (digits : pstr) : N := fold_left dec_step digits acc.

(** Digits and hyphens. *)
Definition plain (c : N) : bool := is_digit c || (c =? c_minus).

(** All the text fields of a record are filled in. *)
Definition populated (r : scan) : Prop :=
  descripcion r <> [] /\ id_producto r <> [] /\ lote r <> []
  /\ creacion r <> [] /\ vencimiento r <> [].

(** A record whose six values can be bound to the [INSERT]: the serial
    is within the signed 64-bit range and no text has a lone surrogate. *)
Definition bindable (r : scan) : bool :=
  int64 (nro_serie r)
  && encodable (descripcion r) && encodable (id_producto r)
  && encodable (lote r) && encodable (creacion r)
  && encodable (vencimiento r).

(** ** The table view and the dates printed on a label *)

(** [refresh_table]: the view is emptied, then filled with the latest rows,
    oldest first; the caption tells how many rows are shown. *)
Definition refresh_table (db : store) (limit : Z) : list scan * pstr :=
  let rows := fetch_latest_scans db limit in
  (rev rows,
   str "Mostrando " ++ str_N (N.of_nat (length rows))
   ++ str " registros (" ++ 250 :: str "ltimos)").

(** [strftime("%d/%m/%y")], the form of [fecha_str] and
    [fecha_venc_str]. *)
Definition fecha_str (d : date) : pstr :=
  pad 2 (day d) ++ c_slash :: pad 2 (month d) ++ c_slash :: pad 2 (year d mod 100).

(** A day of the calendar. *)
Definition valid_date (d : date) : bool :=
  (1 <=? month d) && (month d <=? 12)
  && (1 <=? day d) && (day d <=? days_in_month (year d) (month d)).

(** The check of one date, for the years from 1969 on. *)
Definition date_round_trip_check `{Unicode} (k m dd : N) : bool :=
  let d := {| year := 1969 + k; month := m; day := dd |} in
  if valid_date d then
    bool_decide (normalize_date (fecha_str d) = isoformat d)
    && match strptime_dmy (fecha_str d) with
       | Some d' => (year d' =? year d) && (month d' =? month d)
                    && (day d' =? day d)
       | None => false
       end
  else true.

(** The prefixes [pick] is called with. *)
Definition legacy_prefixes : list pstr :=
  [p_num_de_serie; p_n_de_serie; p_no_de_serie; p_id_producto; p_lote;
   p_creacion; p_creacion_ac; p_vencimiento].

(** A line that starts with one of [known_prefixes], case apart. *)
Definition known_line `{Unicode} (l : pstr) : bool :=
  existsb (startswith (lower l)) known_prefixes.

(** The columns of the uniqueness constraint. *)
Definition triple (r : scan) : pstr * Z * pstr :=
  (id_producto r, nro_serie r, lote r).

(** ** Sample inputs *)

Definition nl (a b : pstr) : pstr := a ++ c_nl :: b.

Definition ex_primary : pstr := Eval cbv in
  str "NS=000001|PRD=12|DSC=Bolsa 5kg|LOT=090226|FEC=2026-02-09|VTO=2026-08-09".
(** The same triple with another description and other dates. *)
Definition ex_same_triple : pstr := Eval cbv in
  str "VTO=2027-01-01|FEC=2026-07-01|LOT=090226|DSC=Otra bolsa|PRD=12|NS=1".
Definition ex_second : pstr := Eval cbv in
  str "NS=000002|PRD=12|DSC=Bolsa 5kg|LOT=090226|FEC=2026-02-09|VTO=2026-08-09".
Definition ex_third : pstr := Eval cbv in
  str "NS=000003|PRD=12|DSC=Bolsa 5kg|LOT=090226|FEC=2026-02-09|VTO=2026-08-09".
Definition ex_missing_vto : pstr := Eval cbv in
  str "NS=000001|PRD=12|DSC=Bolsa 5kg|LOT=090226|FEC=2026-02-09".
Definition ex_negative : pstr := Eval cbv in
  str "NS=-5|PRD=12|DSC=Bolsa 5kg|LOT=090226|FEC=2026-02-09|VTO=2026-08-09".
Definition ex_legacy : pstr := Eval cbv in
  nl (str "N de serie: 000002") (nl (str "ID producto: 7")
    (nl (str "Detergente X") (nl (str "Lote: 100125")
      (nl (str "Creacion: 10/01/25") (str "Vencimiento: 10/07/25"))))).
(** An old label whose lot line has no colon. *)
Definition ex_legacy_no_colon : pstr := Eval cbv in
  nl (str "N de serie: 000002") (nl (str "ID producto: 7")
    (nl (str "Detergente X") (nl (str "Lote 100125")
      (nl (str "Creacion: 10/01/25") (str "Vencimiento: 10/07/25"))))).
(** A newline, then a word. *)
Definition ex_leading_newline : pstr := Eval cbv in c_nl :: str "abc".

(** The segments of [ex_primary]. *)
Definition ex_segs : list pstr := Eval cbv in split_on c_pipe ex_primary.

(** A description of 92 characters whose 90th is a space. *)
Definition ex_long_description : pstr := Eval cbv in
  repeat 97 89 ++ c_space :: str "bc".

Definition ex_date : date := {| year := 2026; month := 2; day := 9 |}.

Definition ex_record (n : Z) : scan :=
  {| descripcion := str "Bolsa 5kg"; nro_serie := n; id_producto := str "12";
     lote := str "090226"; creacion := str "2026-02-09";
     vencimiento := str "2026-08-09" |}.
Definition ex_record_other : scan :=
  {| descripcion := str "Otra bolsa"; nro_serie := 1; id_producto := str "12";
     lote := str "090226"; creacion := str "2026-07-01";
     vencimiento := str "2027-01-01" |}.

(** More sample inputs. *)
Definition ex_legacy_record : scan :=
  {| descripcion := str "Detergente X"; nro_serie := 2; id_producto := str "7";
     lote := str "100125"; creacion := str "2025-01-10";
     vencimiento := str "2025-07-10" |}.
Definition ex_bad_serial : pstr := Eval cbv in
  str "NS=12a|PRD=12|DSC=Bolsa 5kg|LOT=090226|FEC=2026-02-09|VTO=2026-08-09".
Definition ex_segs_head : list pstr := Eval cbv in take 3 ex_segs.
Definition ex_segs_tail : list pstr := Eval cbv in drop 3 ex_segs.
Definition ex_spaced_segs : list pstr := Eval cbv in
  [str " NS = 000001 "; str "PRD =12"; str "DSC= Bolsa 5kg"; str "LOT=090226 ";
   str "  FEC=2026-02-09"; str "VTO  =  2026-08-09"].
Definition ex_lote_lines : list pstr := Eval cbv in
  [str "Detergente X"; str "Lote: 100125"; str "Lote: 999"].
Definition ex_end_of_august : date := {| year := 2026; month := 8; day := 31 |}.

(** A label whose serial is 2^63, and one whose description has a lone
    surrogate. *)
Definition ex_serial_2_63 : pstr := Eval cbv in
  str "NS=9223372036854775808|PRD=12|DSC=Bolsa 5kg|LOT=090226|FEC=2026-02-09|VTO=2026-08-09".
Definition ex_surrogate : pstr := Eval cbv in
  str "NS=000001|PRD=12|DSC=Bolsa " ++ 55296 ::
  str "|LOT=090226|FEC=2026-02-09|VTO=2026-08-09".
(** Segments that set every key, NS and DSC twice. *)
Definition ex_repeated_segs : list pstr := Eval cbv in
  [str "NS=7"; str "DSC=Caja"; str "PRD=12"; str " NS = 000001 ";
   str "LOT=090226"; str "FEC=2026-02-09"; str "DSC=Bolsa 5kg";
   str "VTO=2026-08-09"].

(** * Properties *)

(** ** Stripping and splitting *)

Lemma filter_head {A} (f : A -> bool) l x t :
  List.filter f l = x :: t ->
  exists pre post, l = pre ++ x :: post
    /\ Forall (fun y => f y = false) pre /\ f x = true.
Proof.
  induction l as [|y l IH]; simpl; [done|]. destruct (f y) eqn:E.
  - intros [= -> <-]. exists [], l. by repeat split.
  - intros H. destruct (IH H) as [pre [post [-> [Hp Hx]]]].
    exists (y :: pre), post. split; [done|]. split; [by constructor|done].
Qed.

Ltac bools :=
  repeat match goal with
  | H : _ && _ = true |- _ => apply andb_prop in H as [? ?]
  | H : _ || _ = true |- _ => apply orb_prop in H as [?|?]
  | H : in_range _ _ _ = true |- _ => unfold in_range in H
  | H : (_ <=? _) = true |- _ => apply N.leb_le in H
  | H : (_ <=? _) = false |- _ => apply N.leb_gt in H
  | H : (_ <? _) = true |- _ => apply N.ltb_lt in H
  | H : (_ <? _) = false |- _ => apply N.ltb_ge in H
  | H : (_ =? _) = true |- _ => apply N.eqb_eq in H
  end.


Lemma drop_while_idem p s : drop_while p (drop_while p s) = drop_while p s.
Proof.
  induction s as [|c s IH]; simpl; [done|].
  destruct (p c) eqn:E; [done|]. simpl. by rewrite E.
Qed.

Lemma drop_while_all p s : forallb p s = true -> drop_while p s = [].
Proof.
  induction s as [|c s IH]; simpl; [done|].
  destruct (p c); simpl; [done|discriminate].
Qed.

Lemma drop_while_app_all p a b :
  forallb p a = true -> drop_while p (a ++ b) = drop_while p b.
Proof.
  induction a as [|c a IH]; simpl; [done|].
  destruct (p c); simpl; [done|discriminate].
Qed.

Lemma drop_while_app_stop p a c b :
  p c = false -> drop_while p (a ++ c :: b) = drop_while p a ++ c :: b.
Proof.
  intros Hc. induction a as [|x a IH]; simpl.
  - by rewrite Hc.
  - destruct (p x); [done|reflexivity].
Qed.

(** What [drop_while] removes satisfies the test, and what it leaves is a
    suffix. *)
Lemma drop_while_split p s :
  exists pre, s = pre ++ drop_while p s /\ forallb p pre = true.
Proof.
  induction s as [|c s [pre [E A]]]; simpl.
  - by exists [].
  - destruct (p c) eqn:Ec.
    + exists (c :: pre). simpl. rewrite Ec, A. split; [by f_equal|done].
    + by exists [].
Qed.

Lemma drop_while_head p s c t : drop_while p s = c :: t -> p c = false.
Proof.
  induction s as [|x s IH]; simpl; [done|].
  destruct (p x) eqn:E; [done|]. intros [= -> _]. done.
Qed.

Lemma forallb_rev {A} (p : A -> bool) l : forallb p (rev l) = forallb p l.
Proof.
  induction l as [|x l IH]; simpl; [done|].
  rewrite forallb_app, IH. simpl. rewrite andb_true_r. apply andb_comm.
Qed.

Lemma lstrip_idem s : lstrip (lstrip s) = lstrip s.
Proof. apply drop_while_idem. Qed.

Lemma rstrip_idem s : rstrip (rstrip s) = rstrip s.
Proof. unfold rstrip. by rewrite rev_involutive, drop_while_idem. Qed.

Lemma rstrip_app_stop a c b :
  py_isspace c = false -> rstrip (a ++ c :: b) = a ++ c :: rstrip b.
Proof.
  intros Hc. unfold rstrip. rewrite rev_app_distr. simpl.
  rewrite <- app_assoc. simpl. rewrite drop_while_app_stop by done.
  rewrite rev_app_distr. simpl. rewrite rev_involutive.
  by rewrite <- app_assoc.
Qed.

Lemma rstrip_app_all a b :
  forallb py_isspace b = true -> rstrip (a ++ b) = rstrip a.
Proof.
  intros Hb. unfold rstrip. rewrite rev_app_distr.
  rewrite drop_while_app_all; [done|]. by rewrite forallb_rev.
Qed.

Lemma rstrip_all s : forallb py_isspace s = true -> rstrip s = [].
Proof.
  intros Hs. unfold rstrip. rewrite drop_while_all; [done|].
  by rewrite forallb_rev.
Qed.

Lemma lstrip_rstrip s : lstrip (rstrip s) = rstrip (lstrip s).
Proof.
  unfold lstrip at 2. destruct (drop_while_split py_isspace s) as [pre [E A]].
  destruct (drop_while py_isspace s) as [|c t] eqn:D.
  - rewrite app_nil_r in E. subst pre. rewrite (rstrip_all s A). done.
  - pose proof (drop_while_head _ _ _ _ D) as Hc.
    rewrite E at 1. rewrite rstrip_app_stop by done.
    unfold lstrip. rewrite drop_while_app_stop by done.
    rewrite (drop_while_all _ pre A). simpl.
    symmetry. apply (rstrip_app_stop [] c t Hc).
Qed.

Lemma strip_idem s : strip (strip s) = strip s.
Proof.
  unfold strip. rewrite lstrip_rstrip, lstrip_idem. apply rstrip_idem.
Qed.

Lemma strip_lstrip s : strip (lstrip s) = strip s.
Proof. unfold strip. by rewrite lstrip_idem. Qed.

Lemma strip_rstrip s : strip (rstrip s) = strip s.
Proof. unfold strip. by rewrite lstrip_rstrip, rstrip_idem. Qed.

Lemma rstrip_split s :
  exists post, s = rstrip s ++ post /\ forallb py_isspace post = true.
Proof.
  destruct (drop_while_split py_isspace (rev s)) as [pre [E A]].
  exists (rev pre). split.
  - unfold rstrip. rewrite <- rev_app_distr, <- E. by rewrite rev_involutive.
  - by rewrite forallb_rev.
Qed.

Lemma strip_split s :
  exists pre post, s = pre ++ strip s ++ post
    /\ forallb py_isspace pre = true /\ forallb py_isspace post = true.
Proof.
  destruct (drop_while_split py_isspace s) as [pre [E A]].
  destruct (rstrip_split (lstrip s)) as [post [E' A']].
  exists pre, post. unfold strip. by rewrite <- E'.
Qed.

Lemma contains_cons c x s : contains c (x :: s) = (c =? x) || contains c s.
Proof. done. Qed.

Lemma contains_app c a b : contains c (a ++ b) = contains c a || contains c b.
Proof. apply existsb_app. Qed.

Lemma contains_all_space c a :
  py_isspace c = false -> forallb py_isspace a = true -> contains c a = false.
Proof.
  intros Hc. induction a as [|x a IH]; simpl; [done|].
  intros [Hx Ha]%andb_prop. rewrite (IH Ha), orb_false_r.
  apply N.eqb_neq. intros ->. congruence.
Qed.

(** Stripping neither adds nor removes a character that is not
    whitespace. *)
Lemma contains_strip c s :
  py_isspace c = false -> contains c (strip s) = contains c s.
Proof.
  intros Hc. destruct (strip_split s) as [pre [post [E [A B]]]].
  rewrite E at 2. rewrite !contains_app.
  rewrite (contains_all_space c pre Hc A), (contains_all_space c post Hc B).
  simpl. by rewrite orb_false_r.
Qed.

Lemma contains_strip_inv c s :
  contains c (strip s) = true -> contains c s = true.
Proof.
  intros H. destruct (strip_split s) as [pre [post [E _]]].
  rewrite E, !contains_app, H. simpl. apply orb_true_r.
Qed.

Lemma strip_around pre core post :
  forallb py_isspace pre = true -> forallb py_isspace post = true ->
  strip (pre ++ core ++ post) = strip core.
Proof.
  intros A B. unfold strip at 1. unfold lstrip.
  rewrite drop_while_app_all by done. fold (lstrip (core ++ post)).
  rewrite <- lstrip_rstrip, rstrip_app_all by done.
  by rewrite lstrip_rstrip.
Qed.

(** [lstrip] leaves a suffix, [rstrip] a prefix. *)
Lemma lstrip_split s :
  exists pre, s = pre ++ lstrip s /\ forallb py_isspace pre = true.
Proof. apply drop_while_split. Qed.

Lemma contains_lstrip_false c s : contains c s = false -> contains c (lstrip s) = false.
Proof.
  destruct (lstrip_split s) as [pre [E _]]. rewrite E at 1.
  rewrite contains_app. by intros [_ ?]%orb_false_elim.
Qed.

Lemma contains_rstrip_false c s : contains c s = false -> contains c (rstrip s) = false.
Proof.
  destruct (rstrip_split s) as [post [E _]]. rewrite E at 1.
  rewrite contains_app. by intros [? _]%orb_false_elim.
Qed.

Lemma split_once_app c k v :
  contains c k = false -> split_once c (k ++ c :: v) = Some (k, v).
Proof.
  induction k as [|x k IH]; simpl.
  - by rewrite N.eqb_refl.
  - intros [Hx Hk]%orb_false_elim. rewrite N.eqb_sym, Hx, (IH Hk). done.
Qed.

Lemma split_once_Some c s k v :
  split_once c s = Some (k, v) -> s = k ++ c :: v /\ contains c k = false.
Proof.
  revert k. induction s as [|x s IH]; simpl; [done|]. intros k.
  destruct (x =? c) eqn:E.
  - intros [= <- <-]. apply N.eqb_eq in E. by subst.
  - destruct (split_once c s) as [[k' v']|]; [|done].
    intros [= <- <-]. destruct (IH k' eq_refl) as [-> H]. split; [done|].
    simpl. by rewrite N.eqb_sym, E, H.
Qed.

Lemma split_once_None c s : contains c s = false -> split_once c s = None.
Proof.
  induction s as [|x s IH]; simpl; [done|].
  intros [Hx Hs]%orb_false_elim. by rewrite N.eqb_sym, Hx, (IH Hs).
Qed.

Lemma split_once_None_inv c s : split_once c s = None -> contains c s = false.
Proof.
  induction s as [|x s IH]; simpl; [done|].
  destruct (x =? c) eqn:E; [done|].
  destruct (split_once c s) as [[k v]|]; [done|].
  intros _. by rewrite N.eqb_sym, E, IH.
Qed.

(** The key and the value of a segment do not depend on whitespace around
    the segment. *)
Lemma key_value_lstrip p : key_value (lstrip p) = key_value p.
Proof.
  unfold key_value. destruct (split_once c_eq p) as [[k v]|] eqn:E.
  - apply split_once_Some in E as [-> Hk]. unfold lstrip.
    rewrite drop_while_app_stop by reflexivity.
    rewrite split_once_app by (by apply contains_lstrip_false).
    by rewrite strip_lstrip.
  - apply split_once_None_inv in E.
    by rewrite split_once_None by (by apply contains_lstrip_false).
Qed.

Lemma key_value_rstrip p : key_value (rstrip p) = key_value p.
Proof.
  unfold key_value. destruct (split_once c_eq p) as [[k v]|] eqn:E.
  - apply split_once_Some in E as [-> Hk].
    rewrite rstrip_app_stop by reflexivity.
    rewrite split_once_app by done. by rewrite strip_rstrip.
  - apply split_once_None_inv in E.
    by rewrite split_once_None by (by apply contains_rstrip_false).
Qed.

Lemma split_on_nosep c a : contains c a = false -> split_on c a = [a].
Proof.
  induction a as [|x a IH]; simpl; [done|].
  intros [Hx Ha]%orb_false_elim. by rewrite N.eqb_sym, Hx, (IH Ha).
Qed.

Lemma split_on_app_sep c a b :
  contains c a = false -> split_on c (a ++ c :: b) = a :: split_on c b.
Proof.
  induction a as [|x a IH]; simpl.
  - by rewrite N.eqb_refl.
  - intros [Hx Ha]%orb_false_elim. by rewrite N.eqb_sym, Hx, (IH Ha).
Qed.

Lemma join_cons c s r rest : join c (s :: r :: rest) = s ++ c :: join c (r :: rest).
Proof. done. Qed.

(** Splitting undoes joining. *)
Lemma split_on_join c segs :
  segs <> [] -> no_sep c segs -> split_on c (join c segs) = segs.
Proof.
  induction segs as [|s [|r rest] IH]; [done| |]; intros _ Hs.
  - simpl. apply split_on_nosep. by inversion Hs.
  - rewrite join_cons. inversion Hs as [|? ? Hc Hr]; subst.
    rewrite split_on_app_sep by done. by rewrite IH.
Qed.

Lemma split_rstrip_join segs :
  segs <> [] -> no_sep c_pipe segs ->
  map key_value (split_on c_pipe (rstrip (join c_pipe segs))) = map key_value segs.
Proof.
  induction segs as [|s [|r rest] IH]; [done| |]; intros _ Hs.
  - simpl. inversion Hs; subst.
    rewrite split_on_nosep by (by apply contains_rstrip_false).
    simpl. by rewrite key_value_rstrip.
  - rewrite join_cons. inversion Hs as [|? ? Hc Hr]; subst.
    rewrite rstrip_app_stop by reflexivity.
    rewrite split_on_app_sep by done.
    change (map key_value (s :: ?l)) with (key_value s :: map key_value l).
    by rewrite IH.
Qed.

(** The segments the decoder reads from a joined input: those that were
    joined, up to whitespace at the two ends. *)
Lemma split_strip_join segs :
  (2 <= length segs)%nat -> no_sep c_pipe segs ->
  map key_value (split_on c_pipe (strip (join c_pipe segs))) = map key_value segs.
Proof.
  destruct segs as [|s [|r rest]]; simpl length; [lia|lia|]. intros _ Hs.
  rewrite join_cons. inversion Hs as [|? ? Hc Hr]; subst.
  unfold strip, lstrip. rewrite drop_while_app_stop by reflexivity.
  rewrite rstrip_app_stop by reflexivity.
  rewrite split_on_app_sep by (by apply contains_lstrip_false).
  change (map key_value (?x :: ?l)) with (key_value x :: map key_value l).
  rewrite split_rstrip_join by done.
  f_equal. apply key_value_lstrip.
Qed.

Lemma contains_join_sep c segs :
  (2 <= length segs)%nat -> contains c (join c segs) = true.
Proof.
  destruct segs as [|s [|r rest]]; simpl length; [lia|lia|]. intros _.
  rewrite join_cons, contains_app. simpl. rewrite N.eqb_refl. apply orb_true_r.
Qed.

Lemma contains_join_elem c d segs s :
  In s segs -> contains c s = true -> contains c (join d segs) = true.
Proof.
  intros Hin Hc. induction segs as [|x [|r rest] IH]; [done| |].
  - destruct Hin as [->|[]]. done.
  - rewrite join_cons, contains_app. destruct Hin as [->|Hin].
    + by rewrite Hc.
    + change (contains c (d :: ?l)) with ((c =? d) || contains c l).
      rewrite (IH Hin). by rewrite !orb_true_r.
Qed.

(** ** The dict [data] *)

Lemma build_data_snoc parts p :
  build_data (parts ++ [p]) = add_part (build_data parts) p.
Proof. unfold build_data. by rewrite foldl_app. Qed.

Lemma foldl_add_part_ext d p1 p2 :
  map key_value p1 = map key_value p2 -> foldl add_part d p1 = foldl add_part d p2.
Proof.
  revert d p2. induction p1 as [|a p1 IH]; intros d [|b p2]; simpl; try done.
  intros [= Hab Hp]. unfold add_part at 2 4. rewrite Hab. by apply IH.
Qed.

Lemma build_data_ext p1 p2 :
  map key_value p1 = map key_value p2 -> build_data p1 = build_data p2.
Proof. apply foldl_add_part_ext. Qed.

Lemma add_part_other data p k :
  has_key k p = false -> add_part data p !! k = data !! k.
Proof.
  unfold has_key, add_part. destruct (key_value p) as [[k' v]|]; [|done].
  intros Hk%bool_decide_eq_false. by rewrite lookup_insert_ne.
Qed.

Lemma add_part_same data p k v :
  key_value p = Some (k, v) -> add_part data p !! k = Some v.
Proof. unfold add_part. intros ->. apply lookup_insert_eq. Qed.

(** Last occurrence wins. *)
Lemma build_data_last pre p post k v :
  key_value p = Some (k, v) ->
  Forall (fun q => has_key k q = false) post ->
  build_data (pre ++ p :: post) !! k = Some v.
Proof.
  intros Hp. induction post as [|q post IH] using rev_ind; intros Hpost.
  - rewrite build_data_snoc. by apply add_part_same.
  - apply Forall_app in Hpost as [Hpost Hq]. inversion Hq; subst.
    rewrite app_comm_cons, app_assoc, build_data_snoc.
    rewrite add_part_other by done. by apply IH.
Qed.

Lemma build_data_absent parts k :
  Forall (fun q => has_key k q = false) parts -> build_data parts !! k = None.
Proof.
  induction parts as [|q parts IH] using rev_ind; intros H; [done|].
  apply Forall_app in H as [H Hq]. inversion Hq; subst.
  rewrite build_data_snoc, add_part_other by done. by apply IH.
Qed.

(** A key set by exactly one segment has the value of that segment. *)
Lemma build_data_once parts k p :
  List.filter (has_key k) parts = [p] ->
  exists v, key_value p = Some (k, v) /\ build_data parts !! k = Some v.
Proof.
  revert p. induction parts as [|q parts IH] using rev_ind; intros p; [done|].
  rewrite List.filter_app. simpl. destruct (has_key k q) eqn:Hq.
  - intros H. apply app_eq_unit in H as [[H1 H2]|[_ [=]]].
    injection H2 as <-. unfold has_key in Hq.
    destruct (key_value q) as [[k' v]|] eqn:Ekv; [|done].
    apply bool_decide_eq_true in Hq as ->. exists v. split; [done|].
    rewrite build_data_snoc. by apply add_part_same.
  - rewrite app_nil_r. intros H. destruct (IH p H) as [v [E1 E2]].
    exists v. split; [done|]. by rewrite build_data_snoc, add_part_other.
Qed.

Section Decoder.
Context `{U : Unicode}.

(** ** Format selection *)

Lemma parse_qr_payload_strip raw :
  parse_qr_payload (strip raw) = parse_qr_payload raw.
Proof. unfold parse_qr_payload. by rewrite strip_idem. Qed.

(** C10. The decoder only sees its input stripped: [decode(raw)] is
    [decode(raw.strip())]; whitespace (newlines included) put before and
    after an input does not change the outcome, and an input whose newlines
    are all in that leading or trailing whitespace is not read as the old
    format: it is read as the new format or not recognised. *)
Theorem decode_ignores_surrounding_whitespace (pre core post : pstr)
  (Hpre : forallb py_isspace pre = true)
  (Hpost : forallb py_isspace post = true) :
  (forall raw, parse_qr_payload raw = parse_qr_payload (strip raw))
  /\ parse_qr_payload (pre ++ core ++ post) = parse_qr_payload core
  /\ (contains c_nl core = false ->
      parse_qr_payload (pre ++ core ++ post) =
      if contains c_pipe core && contains c_eq core
      then parse_primary (strip core)
      else Raise (ValueError UnrecognizedFormat)).
Proof.
  split; [intros raw; by rewrite parse_qr_payload_strip|].
  assert (E : parse_qr_payload (pre ++ core ++ post) = parse_qr_payload core).
  { unfold parse_qr_payload. by rewrite strip_around. }
  split; [done|]. intros Hnl. rewrite E. unfold parse_qr_payload.
  rewrite !contains_strip by reflexivity.
  destruct (contains c_pipe core && contains c_eq core); [done|].
  destruct (contains c_nl (strip core)) eqn:Hs; [|done].
  apply contains_strip_inv in Hs. congruence.
Qed.

(** C3 (as amended). The new format is chosen when [raw] has both a pipe
    and an equals sign; otherwise the old format when [raw], stripped of
    surrounding whitespace, has a newline; otherwise the input is not
    recognised. The empty string is not recognised. *)
Theorem format_selection (raw : pstr) :
  parse_qr_payload raw =
    (if contains c_pipe raw && contains c_eq raw then parse_primary (strip raw)
     else if contains c_nl (strip raw) then parse_legacy (strip raw)
     else Raise (ValueError UnrecognizedFormat))
  /\ parse_qr_payload [] = Raise (ValueError UnrecognizedFormat).
Proof.
  split; [|reflexivity]. unfold parse_qr_payload.
  by rewrite !contains_strip by reflexivity.
Qed.

(** ** The new format *)

Lemma parse_primary_branch raw :
  contains c_pipe raw && contains c_eq raw = true ->
  parse_qr_payload raw = primary_fields (fields raw).
Proof.
  intros H. unfold parse_qr_payload. rewrite !contains_strip by reflexivity.
  by rewrite H.
Qed.

Lemma is_missing_spec data k :
  is_missing data k = true <-> data !! k = None \/ data !! k = Some [].
Proof.
  unfold is_missing. destruct (data !! k) as [[|c v]|]; intuition congruence.
Qed.

(** C6. On an input of the new format in which a required key is absent
    or has an empty value once trimmed, the decoder fails with
    [MissingFields]; the keys listed are exactly the required keys that are
    absent or empty, in the order NS, PRD, DSC, LOT, FEC, VTO. When VTO is
    the only such key the list is [["VTO"]]. *)
Theorem missing_fields_listed (raw : pstr)
  (Hformat : contains c_pipe raw && contains c_eq raw = true)
  (Hmissing : existsb (is_missing (fields raw)) required = true) :
  let missing := List.filter (is_missing (fields raw)) required in
  parse_qr_payload raw = Raise (ValueError (MissingFields missing))
  /\ (forall k, In k missing <->
         In k required /\ (fields raw !! k = None \/ fields raw !! k = Some []))
  /\ sublist missing required
  /\ ((forall k, In k required -> is_missing (fields raw) k = true -> k = k_VTO) ->
      parse_qr_payload raw = Raise (ValueError (MissingFields [k_VTO]))).
Proof.
  intros missing.
  assert (Hne : missing <> []).
  { apply existsb_exists in Hmissing as [k [Hk Hm]].
    intros E. assert (In k missing) as Hin by (by apply List.filter_In).
    by rewrite E in Hin. }
  assert (Hp : parse_qr_payload raw = Raise (ValueError (MissingFields missing))).
  { rewrite parse_primary_branch by done. unfold primary_fields.
    fold missing. by destruct missing. }
  split; [done|]. split; [|split].
  - intros k. unfold missing. rewrite List.filter_In, is_missing_spec. done.
  - unfold missing. generalize required. intros l.
    induction l as [|x l IH]; simpl; [constructor|].
    destruct (is_missing (fields raw) x); by constructor.
  - intros Honly. rewrite Hp. do 3 f_equal.
    assert (Hvto : is_missing (fields raw) k_VTO = true).
    { apply existsb_exists in Hmissing as [k [Hk Hm]].
      by rewrite <- (Honly k Hk Hm). }
    assert (Hother : forall k, In k required -> k <> k_VTO ->
                       is_missing (fields raw) k = false).
    { intros k Hk Hk'. destruct (is_missing (fields raw) k) eqn:E; [|done].
      destruct Hk'. by apply Honly. }
    unfold missing, required. simpl.
    rewrite (Hother k_NS), (Hother k_PRD), (Hother k_DSC), (Hother k_LOT),
      (Hother k_FEC) by (done || (unfold required; simpl; tauto)).
    by rewrite Hvto.
Qed.

Lemma primary_fields_ext d1 d2 :
  (forall k, In k required -> d1 !! k = d2 !! k) ->
  primary_fields d1 = primary_fields d2.
Proof.
  intros H. unfold primary_fields.
  assert (Hf : List.filter (is_missing d1) required
               = List.filter (is_missing d2) required).
  { apply List.filter_ext_in. intros k Hk. unfold is_missing. by rewrite (H k Hk). }
  rewrite Hf. rewrite !lookup_total_alt.
  rewrite !H by (unfold required; simpl; tauto). done.
Qed.

Lemma filter_Permutation_bool {A} (f : A -> bool) l l' :
  Permutation l l' -> Permutation (List.filter f l) (List.filter f l').
Proof.
  induction 1 as [|x l l' _ IH|x y l|l l' l'' _ IH1 _ IH2]; simpl.
  - constructor.
  - destruct (f x); [by constructor|done].
  - destruct (f x), (f y); try done; by constructor.
  - by etrans.
Qed.

Lemma keys_once_lookup segs k :
  keys_once segs = true -> In k required ->
  exists p v, List.filter (has_key k) segs = [p] /\ In p segs
    /\ key_value p = Some (k, v) /\ build_data segs !! k = Some v.
Proof.
  intros Hk Hin. unfold keys_once in Hk. rewrite forallb_forall in Hk.
  specialize (Hk k Hin).
  destruct (List.filter (has_key k) segs) as [|p [|q l]] eqn:E; try done.
  destruct (build_data_once segs k p E) as [v [E1 E2]].
  exists p, v. repeat split; try done.
  assert (Hp : In p (List.filter (has_key k) segs)) by (rewrite E; by left).
  by apply List.filter_In in Hp as [? _].
Qed.

Lemma keys_once_Permutation segs segs' :
  Permutation segs segs' -> keys_once segs = true -> keys_once segs' = true.
Proof.
  intros HP Hk. unfold keys_once in *. rewrite forallb_forall in *.
  intros k Hin. specialize (Hk k Hin).
  pose proof (filter_Permutation_bool (has_key k) _ _ HP) as HF.
  destruct (List.filter (has_key k) segs) as [|p [|q l]] eqn:E; try done.
  apply Permutation_length_1_inv in HF. by rewrite HF.
Qed.

Lemma key_value_contains p k v : key_value p = Some (k, v) -> contains c_eq p = true.
Proof.
  unfold key_value. destruct (split_once c_eq p) as [[a b]|] eqn:E; [|done].
  intros _. apply split_once_Some in E as [-> _].
  rewrite contains_app. simpl. apply orb_true_r.
Qed.

(** An input made of two or more segments that set the required keys once
    each is read as the new format, from the dict of its segments. *)
Lemma parse_join segs :
  (2 <= length segs)%nat -> no_sep c_pipe segs -> keys_once segs = true ->
  parse_qr_payload (join c_pipe segs) = primary_fields (build_data segs).
Proof.
  intros Hlen Hsep Hk. rewrite parse_primary_branch.
  - unfold fields. f_equal. apply build_data_ext. by apply split_strip_join.
  - rewrite contains_join_sep by done. simpl.
    destruct (keys_once_lookup segs k_NS Hk) as [p [v [_ [Hin [Hkv _]]]]].
    { unfold required. simpl. tauto. }
    apply (contains_join_elem _ _ _ p Hin). by eapply key_value_contains.
Qed.

(** An input of two or more segments, one of which has an [=], is read
    as the new format, from the dict of its segments. *)
Lemma parse_join_with segs p :
  (2 <= length segs)%nat -> no_sep c_pipe segs ->
  In p segs -> contains c_eq p = true ->
  parse_qr_payload (join c_pipe segs) = primary_fields (build_data segs).
Proof.
  intros Hlen Hsep Hin Hp. rewrite parse_primary_branch.
  - unfold fields. f_equal. apply build_data_ext. by apply split_strip_join.
  - rewrite contains_join_sep by done. simpl.
    by apply (contains_join_elem _ _ _ p Hin).
Qed.

(** The record of a dict that has the six keys, none with an empty
    value. *)
Lemma primary_fields_values data ns prd dsc lot fec vto :
  data !! k_NS = Some ns -> data !! k_PRD = Some prd ->
  data !! k_DSC = Some dsc -> data !! k_LOT = Some lot ->
  data !! k_FEC = Some fec -> data !! k_VTO = Some vto ->
  ns <> [] -> prd <> [] -> dsc <> [] -> lot <> [] -> fec <> [] -> vto <> [] ->
  primary_fields data =
    match py_int ns with
    | Some n => Ok {| descripcion := dsc; nro_serie := n; id_producto := prd;
                      lote := lot; creacion := fec; vencimiento := vto |}
    | None => Raise (ValueError (InvalidSerial ns))
    end.
Proof.
  intros E1 E2 E3 E4 E5 E6 N1 N2 N3 N4 N5 N6.
  unfold primary_fields, required. cbn [List.filter].
  unfold is_missing. rewrite E1, E2, E3, E4, E5, E6.
  destruct ns as [|? ?]; [done|]. destruct prd as [|? ?]; [done|].
  destruct dsc as [|? ?]; [done|]. destruct lot as [|? ?]; [done|].
  destruct fec as [|? ?]; [done|]. destruct vto as [|? ?]; [done|].
  rewrite !lookup_total_alt, E1, E2, E3, E4, E5, E6.
  unfold int_field, mbind, result_bind. cbn [default].
  by destruct (py_int _).
Qed.

(** A returned record holds the values of the dict. *)
Lemma primary_fields_lookup data r k v :
  primary_fields data = Ok r -> data !! k = Some v ->
  (k = k_NS -> py_int v = Some (nro_serie r))
  /\ (k = k_PRD -> id_producto r = v)
  /\ (k = k_DSC -> descripcion r = v)
  /\ (k = k_LOT -> lote r = v)
  /\ (k = k_FEC -> creacion r = v)
  /\ (k = k_VTO -> vencimiento r = v).
Proof.
  unfold primary_fields. destruct (List.filter _ _); [|done].
  unfold int_field, mbind, result_bind. rewrite !lookup_total_alt.
  destruct (py_int _) eqn:E; [|done]. intros [= <-] Hv. cbn [descripcion
    nro_serie id_producto lote creacion vencimiento].
  repeat split; intros ->; rewrite Hv in *; done.
Qed.

(** A required key with an empty value is reported missing. *)
Lemma primary_fields_missing data k :
  In k required -> data !! k = Some [] ->
  exists missing,
    primary_fields data = Raise (ValueError (MissingFields missing))
    /\ In k missing.
Proof.
  intros Hk Hv. unfold primary_fields.
  assert (Hin : In k (List.filter (is_missing data) required)).
  { apply List.filter_In. split; [done|]. unfold is_missing. by rewrite Hv. }
  destruct (List.filter _ _) as [|a l] eqn:E; [done|]. by exists (a :: l).
Qed.

(** [last_value] finds the last segment that sets the key. *)
Lemma last_value_split k segs v :
  last_value k segs = Some v ->
  exists pre p post, segs = pre ++ p :: post /\ key_value p = Some (k, v)
    /\ Forall (fun q => has_key k q = false) post.
Proof.
  unfold last_value.
  destruct (List.filter (has_key k) (rev segs)) as [|p t] eqn:E; [done|].
  intros Hv. destruct (filter_head _ _ _ _ E) as [a [b [Hrev [Ha Hp]]]].
  exists (rev b), p, (rev a). split.
  - rewrite <- (rev_involutive segs), Hrev, rev_app_distr. simpl.
    by rewrite <- app_assoc.
  - split; [|by apply Forall_rev]. unfold has_key in Hp.
    destruct (key_value p) as [[k' v']|]; [|done].
    apply bool_decide_eq_true in Hp as ->. simpl in Hv. by injection Hv as ->.
Qed.

Lemma last_value_lookup k segs v :
  last_value k segs = Some v -> build_data segs !! k = Some v.
Proof.
  intros H. destruct (last_value_split _ _ _ H) as [pre [p [post [-> [Hp Hpost]]]]].
  by apply build_data_last.
Qed.

(** C5. For an input of the new format whose required keys are each set
    once, to a value that is not empty, the decoder gives the same result
    on every permutation of the segments. When several segments set one
    key, the value of the last of them is the one used: it is the value
    the dict holds; when it is empty the key is reported missing, and a
    returned record has it in the field of that key (as the integer it
    reads as, for NS). When every required key has a last value that is
    not empty, the decoder returns the record of these last values, or
    fails with [InvalidSerial] on the last value of NS. *)
Theorem decode_order_independent (segs segs' pre post dup : list pstr)
  (p k v ns prd dsc lot fec vto : pstr) :
  (no_sep c_pipe segs -> keys_once segs = true -> Permutation segs segs' ->
   parse_qr_payload (join c_pipe segs') = parse_qr_payload (join c_pipe segs))
  /\ (no_sep c_pipe (pre ++ p :: post) -> (2 <= length (pre ++ p :: post))%nat ->
      key_value p = Some (k, v) ->
      Forall (fun q => has_key k q = false) post ->
      fields (join c_pipe (pre ++ p :: post)) !! k = Some v
      /\ (In k required -> v = [] ->
          exists missing,
            parse_qr_payload (join c_pipe (pre ++ p :: post))
            = Raise (ValueError (MissingFields missing))
            /\ In k missing)
      /\ (forall r,
            parse_qr_payload (join c_pipe (pre ++ p :: post)) = Ok r ->
            (k = k_NS -> py_int v = Some (nro_serie r))
            /\ (k = k_PRD -> id_producto r = v)
            /\ (k = k_DSC -> descripcion r = v)
            /\ (k = k_LOT -> lote r = v)
            /\ (k = k_FEC -> creacion r = v)
            /\ (k = k_VTO -> vencimiento r = v)))
  /\ (no_sep c_pipe dup -> (2 <= length dup)%nat ->
      last_value k_NS dup = Some ns -> last_value k_PRD dup = Some prd ->
      last_value k_DSC dup = Some dsc -> last_value k_LOT dup = Some lot ->
      last_value k_FEC dup = Some fec -> last_value k_VTO dup = Some vto ->
      ns <> [] -> prd <> [] -> dsc <> [] -> lot <> [] -> fec <> [] ->
      vto <> [] ->
      parse_qr_payload (join c_pipe dup) =
        match py_int ns with
        | Some n => Ok {| descripcion := dsc; nro_serie := n;
                          id_producto := prd; lote := lot;
                          creacion := fec; vencimiento := vto |}
        | None => Raise (ValueError (InvalidSerial ns))
        end).
Proof.
  split; [|split].
  - intros Hsep Hk HP.
    destruct (le_lt_dec 2 (length segs)) as [Hlen|Hlen].
    + pose proof (Permutation_length HP) as Hl.
      assert (Hsep' : no_sep c_pipe segs').
      { unfold no_sep in *. by rewrite <- HP. }
      pose proof (keys_once_Permutation _ _ HP Hk) as Hk'.
      rewrite !parse_join by (done || lia).
      apply primary_fields_ext. intros key Hin.
      destruct (keys_once_lookup segs key Hk Hin) as [q [w [E [_ [Hq ->]]]]].
      destruct (keys_once_lookup segs' key Hk' Hin) as [q' [w' [E' [_ [Hq' ->]]]]].
      pose proof (filter_Permutation_bool (has_key key) _ _ HP) as HF.
      rewrite E, E' in HF. apply Permutation_length_1 in HF. subst q'.
      congruence.
    + destruct segs as [|a [|b l]]; simpl in Hlen; try lia.
      * by apply Permutation_nil in HP as ->.
      * by apply Permutation_length_1_inv in HP as ->.
  - intros Hsep Hlen Hp Hpost.
    pose proof (build_data_last pre p post k v Hp Hpost) as Hv.
    assert (Hparse : parse_qr_payload (join c_pipe (pre ++ p :: post))
                     = primary_fields (build_data (pre ++ p :: post))).
    { apply (parse_join_with _ p); [done|done| |by eapply key_value_contains].
      apply in_elt. }
    split; [|split].
    + unfold fields.
      by rewrite (build_data_ext _ (pre ++ p :: post))
        by (by apply split_strip_join).
    + intros Hk ->. rewrite Hparse. by apply primary_fields_missing.
    + intros r Hr. rewrite Hparse in Hr.
      by apply (primary_fields_lookup _ _ _ _ Hr).
  - intros Hsep Hlen L1 L2 L3 L4 L5 L6 N1 N2 N3 N4 N5 N6.
    destruct (last_value_split _ _ _ L1) as [a [q [b [E [Hq _]]]]].
    rewrite (parse_join_with dup q); [|done|done| |by eapply key_value_contains].
    2:{ rewrite E. apply in_elt. }
    apply primary_fields_values; try done; by apply last_value_lookup.
Qed.

(** ** Dates of the old format *)






Lemma forall_below (P : N -> bool) (b : nat) :
  forallb P (map N.of_nat (seq 0 b)) = true ->
  forall n, n < N.of_nat b -> P n = true.
Proof.
  intros H n Hn. rewrite forallb_forall in H. apply H.
  apply in_map_iff. exists (N.to_nat n). split; [lia|].
  apply in_seq. lia.
Qed.

Lemma pad2_shape n :
  n < 100 -> exists a b, pad 2 n = [a; b] /\ is_digit a = true /\ is_digit b = true.
Proof.
  intros Hn.
  pose proof (forall_below
    (fun n => match pad 2 n with
              | [a; b] => is_digit a && is_digit b
              | _ => false
              end) 100 ltac:(vm_compute; reflexivity) n Hn) as H.
  simpl in H. destruct (pad 2 n) as [|a [|b [|? ?]]]; try done.
  apply andb_prop in H as [? ?]. by exists a, b.
Qed.



Lemma pick_stripped lines prefix v :
  pick lines prefix = Ok (Some v) -> strip v = v.
Proof.
  induction lines as [|l ls IH]; simpl; [done|].
  destruct (startswith (lower l) (lower prefix)); [|done].
  destruct (split_once c_colon l) as [[k w]|]; [|done].
  intros [= <-]. apply strip_idem.
Qed.


(** ** The serial number *)

Lemma int_ascii_minus c : int_ascii c = Some c_minus -> c = c_minus.
Proof.
  unfold int_ascii. destruct (c <? 127); [by intros [= ->]|].
  destruct (py_isspace c); [done|].
  destruct (digit_value c) as [d|]; [|done]. intros [= E]. unfold c_minus in E. lia.
Qed.

Lemma mapM_int_ascii_minus s t :
  mapM int_ascii s = Some t -> contains c_minus t = true -> contains c_minus s = true.
Proof.
  rewrite mapM_Some. induction 1 as [|c c' s t Hc _ IH]; [done|].
  rewrite !contains_cons. intros [E|E]%orb_prop.
  - apply N.eqb_eq in E. subst c'. apply int_ascii_minus in Hc as ->. done.
  - rewrite (IH E). apply orb_true_r.
Qed.

Lemma contains_drop_while c p s :
  contains c (drop_while p s) = true -> contains c s = true.
Proof.
  destruct (drop_while_split p s) as [pre [E _]]. intros H.
  rewrite E, contains_app, H. apply orb_true_r.
Qed.

(** [int()] gives a negative number only for a text with a minus sign. *)
Lemma py_int_nonneg s n :
  py_int s = Some n -> contains c_minus s = false -> (0 <= n)%Z.
Proof.
  unfold py_int. destruct (mapM int_ascii s) as [t|] eqn:Et; [|done].
  intros H Hs.
  assert (Ht : contains c_minus (drop_while py_ctype_space t) = false).
  { destruct (contains c_minus (drop_while py_ctype_space t)) eqn:E; [|done].
    apply contains_drop_while in E.
    apply (mapM_int_ascii_minus _ _ Et) in E. congruence. }
  destruct (drop_while py_ctype_space t) as [|c r]; [done|].
  rewrite contains_cons in Ht. apply orb_false_elim in Ht as [Hc _].
  rewrite N.eqb_sym in Hc. rewrite Hc in H.
  destruct (c =? c_plus);
    match type of H with
    | _ <$> ?o = _ => destruct o; [injection H as <-; lia|done]
    end.
Qed.

Lemma int_field_Ok ns n : int_field ns = Ok n -> py_int ns = Some n.
Proof. unfold int_field. destruct (py_int ns); [by intros [= ->]|done]. Qed.

Lemma primary_fields_serial data r :
  primary_fields data = Ok r ->
  exists ns, data !! k_NS = Some ns /\ py_int ns = Some (nro_serie r).
Proof.
  unfold primary_fields.
  destruct (List.filter (is_missing data) required) eqn:E; [|done].
  assert (Hns : is_missing data k_NS = false).
  { destruct (is_missing data k_NS) eqn:Em; [|done].
    assert (In k_NS (List.filter (is_missing data) required)) as Hin.
    { apply List.filter_In. split; [by left|done]. }
    by rewrite E in Hin. }
  unfold is_missing in Hns. rewrite (lookup_total_alt data k_NS).
  destruct (data !! k_NS) as [ns|]; [|done]. unfold mbind, result_bind. simpl.
  destruct (int_field ns) as [n|e] eqn:En; [|done].
  intros [= <-]. exists ns. split; [done|]. by apply int_field_Ok.
Qed.

Lemma parse_legacy_serial raw r :
  parse_legacy raw = Ok r ->
  exists ns,
    py_or (pick (legacy_lines raw) p_num_de_serie)
      (py_or (pick (legacy_lines raw) p_n_de_serie)
         (pick (legacy_lines raw) p_no_de_serie)) = Ok (Some ns)
    /\ py_int ns = Some (nro_serie r).
Proof.
  unfold parse_legacy, mbind, result_bind.
  destruct (py_or _ _) as [ns|] eqn:Ens; [|done].
  destruct (pick _ p_id_producto) as [prd|]; [|done].
  destruct (pick _ p_lote) as [lot|]; [|done].
  destruct (py_or (pick _ p_creacion) _) as [cre|]; [|done].
  destruct (pick _ p_vencimiento) as [vto|]; [|done].
  destruct (negb (forallb truthy [ns; prd; lot; cre; vto]) || _) eqn:Ht; [done|].
  apply orb_false_elim in Ht as [Ht _]. apply negb_false_iff in Ht.
  simpl in Ht. apply andb_prop in Ht as [Tns _].
  destruct ns as [ns|]; [|done]. simpl.
  destruct (int_field ns) as [n|] eqn:En; [|done].
  intros [= <-]. exists ns. split; [done|]. by apply int_field_Ok.
Qed.

(** C9 (as amended). When decoding succeeds, [nro_serie] is the integer
    [int()] reads from the serial text; it is at least 0 whenever that text
    has no minus sign. *)
Theorem nro_serie_of_serial_text (raw : pstr) (r : scan)
  (Hok : parse_qr_payload raw = Ok r) :
  exists ns, serial_text raw = Some ns
    /\ py_int ns = Some (nro_serie r)
    /\ (contains c_minus ns = false -> (0 <= nro_serie r)%Z).
Proof.
  unfold parse_qr_payload in Hok. unfold serial_text.
  destruct (contains c_pipe (strip raw) && contains c_eq (strip raw)).
  - apply primary_fields_serial in Hok as [ns [E1 E2]].
    exists ns. repeat split; try done. by apply py_int_nonneg.
  - destruct (contains c_nl (strip raw)); [|done].
    apply parse_legacy_serial in Hok as [ns [E1 E2]].
    exists ns. rewrite E1. repeat split; try done. by apply py_int_nonneg.
Qed.

(** ** Outcomes of the old format *)

Lemma pick_raise lines prefix e : pick lines prefix = Raise e -> e = IndexError.
Proof.
  induction lines as [|l ls IH]; simpl; [done|].
  destruct (startswith (lower l) (lower prefix)); [|done].
  destruct (split_once c_colon l) as [[k w]|]; [done|]. by intros [= <-].
Qed.

Lemma py_or_raise a b e :
  (forall e', a = Raise e' -> e' = IndexError) ->
  (forall e', b = Raise e' -> e' = IndexError) ->
  py_or a b = Raise e -> e = IndexError.
Proof.
  intros Ha Hb. unfold py_or, mbind, result_bind. destruct a as [x|e'].
  - destruct (truthy x); [done|]. apply Hb.
  - intros [= <-]. by apply Ha.
Qed.

(** The old-format branch never answers [UnrecognizedFormat]. *)
Lemma parse_legacy_recognized raw :
  parse_legacy raw <> Raise (ValueError UnrecognizedFormat).
Proof.
  unfold parse_legacy, mbind, result_bind.
  destruct (py_or _ _) as [ns|e] eqn:Ens.
  2:{ apply py_or_raise in Ens as ->; [done|apply pick_raise|].
      intros e'. apply py_or_raise; apply pick_raise. }
  destruct (pick _ p_id_producto) as [prd|e] eqn:E1.
  2:{ by apply pick_raise in E1 as ->. }
  destruct (pick _ p_lote) as [lot|e] eqn:E2.
  2:{ by apply pick_raise in E2 as ->. }
  destruct (py_or (pick _ p_creacion) _) as [cre|e] eqn:E3.
  2:{ apply py_or_raise in E3 as ->; [done|apply pick_raise..]. }
  destruct (pick _ p_vencimiento) as [vto|e] eqn:E4.
  2:{ by apply pick_raise in E4 as ->. }
  destruct (_ || _); [done|].
  unfold int_field. by destruct (py_int (unwrap ns)).
Qed.

End Decoder.

(** ** The store *)

Section Store.
Context `{U : Unicode}.

Lemma same_key_true a b :
  same_key a b = true <->
  id_producto a = id_producto b /\ nro_serie a = nro_serie b /\ lote a = lote b.
Proof.
  unfold same_key. rewrite !andb_true_iff, !bool_decide_eq_true, Z.eqb_eq.
  tauto.
Qed.

Lemma same_key_sym a b : same_key a b = true -> same_key b a = true.
Proof. rewrite !same_key_true. intuition congruence. Qed.

(** Binding succeeds on the bindable records, and on no other. *)
Lemma bind_parameters_cases r :
  (bindable r = true /\ bind_parameters r = Ok tt)
  \/ (bindable r = false
      /\ (bind_parameters r = Raise OverflowError
          \/ bind_parameters r = Raise UnicodeEncodeError)).
Proof.
  unfold bindable, bind_parameters, bind_text, bind_int, mbind, result_bind.
  destruct (encodable (descripcion r)); [|right; rewrite andb_false_r; auto].
  destruct (int64 (nro_serie r)); [|right; auto].
  destruct (encodable (id_producto r)); [|right; auto].
  destruct (encodable (lote r)); [|right; auto].
  destruct (encodable (creacion r)); [|right; auto].
  destruct (encodable (vencimiento r)); [|right; auto].
  by left.
Qed.

Lemma bind_parameters_bindable r :
  bindable r = true -> bind_parameters r = Ok tt.
Proof.
  intros Hb. destruct (bind_parameters_cases r) as [[_ E]|[E _]];
    [done|congruence].
Qed.

Lemma save_scan_new db raw r :
  parse_qr_payload raw = Ok r -> bindable r = true ->
  existsb (same_key r) db = false ->
  save_scan db raw = Ok (db ++ [r], (OK, msg_ok r)).
Proof.
  intros Hr Hb Hnew. unfold save_scan, insert_scan, mbind, result_bind.
  by rewrite Hr, (bind_parameters_bindable _ Hb), Hnew.
Qed.

Lemma save_scan_dup db raw r :
  parse_qr_payload raw = Ok r -> bindable r = true ->
  existsb (same_key r) db = true ->
  save_scan db raw = Ok (db, (DUP, msg_dup r)).
Proof.
  intros Hr Hb Hold. unfold save_scan, insert_scan, mbind, result_bind.
  by rewrite Hr, (bind_parameters_bindable _ Hb), Hold.
Qed.

(** A record that cannot be bound: [save_scan] raises, whatever the
    table holds. *)
Lemma save_scan_unbound db raw r :
  parse_qr_payload raw = Ok r -> bindable r = false ->
  exists e, save_scan db raw = Raise e.
Proof.
  intros Hr Hb. unfold save_scan, insert_scan, mbind, result_bind.
  rewrite Hr. destruct (bind_parameters_cases r) as [[E _]|[_ [E|E]]];
    [congruence| |]; rewrite E; eauto.
Qed.

Lemma save_scan_raise db raw e :
  parse_qr_payload raw = Raise e -> save_scan db raw = Raise e.
Proof. intros Hr. unfold save_scan, mbind, result_bind. by rewrite Hr. Qed.

(** One scan event appends the decoded record when it is new, and leaves
    the table as it is otherwise. *)
Lemma on_scan_return_cases db entry :
  (exists r m, parse_qr_payload (strip entry) = Ok r
     /\ existsb (same_key r) db = false
     /\ on_scan_return db entry = (db ++ [r], Some (Ok (OK, m))))
  \/ (fst (on_scan_return db entry) = db
      /\ forall m, snd (on_scan_return db entry) <> Some (Ok (OK, m))).
Proof.
  unfold on_scan_return. destruct (nonempty (strip entry)); [|by right].
  destruct (parse_qr_payload (strip entry)) as [r|e] eqn:Hr.
  - destruct (bindable r) eqn:Hb.
    + destruct (existsb (same_key r) db) eqn:Hk.
      * right. by rewrite (save_scan_dup _ _ _ Hr Hb Hk).
      * left. exists r, (msg_ok r). by rewrite (save_scan_new _ _ _ Hr Hb Hk).
    + right. destruct (save_scan_unbound db _ _ Hr Hb) as [e E].
      by rewrite E.
  - right. by rewrite (save_scan_raise _ _ _ Hr).
Qed.

Lemma scan_all_cons db entry rest :
  scan_all db (entry :: rest) = scan_all (fst (on_scan_return db entry)) rest.
Proof. done. Qed.

(** The table after a run: the rows it had, then the accepted records in
    the order of their events. *)
Lemma scan_all_accepted db entries :
  scan_all db entries = db ++ accepted db entries.
Proof.
  revert db. induction entries as [|entry rest IH]; intros db.
  - simpl. by rewrite app_nil_r.
  - rewrite scan_all_cons. simpl accepted.
    destruct (on_scan_return_cases db entry) as [[r [m [Hr [_ E]]]]|[E1 E2]].
    + rewrite E, Hr. simpl. by rewrite IH, <- app_assoc.
    + destruct (on_scan_return db entry) as [db' shown]. simpl in *. subst db'.
      rewrite IH. f_equal.
      destruct shown as [[[[|] m]|e]|]; try done.
      by destruct (E2 m).
Qed.

(** C1 (as amended). For decoded records that can be bound to the INSERT
    (serial within the signed 64-bit range, no lone surrogate in a
    text): the first insert of a triple (id_producto, nro_serie, lote) is
    answered OK and adds one row; an insert of a record with the same
    triple, whatever its other fields, is answered DUP and adds none, at
    once or after any further scan events. Over the pair of inserts the
    table grows by exactly one row. *)
Theorem insert_then_duplicate (db : store) (raw raw' : pstr) (r r' : scan)
  (Hr : parse_qr_payload raw = Ok r)
  (Hr' : parse_qr_payload raw' = Ok r')
  (Hbind : bindable r = true)
  (Hbind' : bindable r' = true)
  (Hkey : same_key r r' = true)
  (Hnew : existsb (same_key r) db = false) :
  exists db1 db2,
    save_scan db raw = Ok (db1, (OK, msg_ok r))
    /\ save_scan db1 raw' = Ok (db2, (DUP, msg_dup r'))
    /\ db1 = db ++ [r] /\ db2 = db1
    /\ length db2 = S (length db)
    /\ forall entries,
         save_scan (scan_all db1 entries) raw'
         = Ok (scan_all db1 entries, (DUP, msg_dup r')).
Proof.
  exists (db ++ [r]), (db ++ [r]).
  assert (Hin : forall l, existsb (same_key r') ((db ++ [r]) ++ l) = true).
  { intros l. rewrite !existsb_app. simpl.
    rewrite (same_key_sym _ _ Hkey). simpl. by rewrite orb_true_r. }
  split; [by apply save_scan_new|]. split.
  { apply save_scan_dup; [done|done|]. specialize (Hin []).
    by rewrite app_nil_r in Hin. }
  split; [done|]. split; [done|]. split.
  { rewrite length_app. simpl. lia. }
  intros entries. apply save_scan_dup; [done|done|].
  rewrite scan_all_accepted. apply Hin.
Qed.

(** C8. After a run of scan events on a new table, of which N were
    answered OK, [fetch_latest_scans] returns the accepted records newest
    first, cut to [limit]: the record at place [i] of the answer is the one
    accepted as number N - 1 - i. When N is at least [limit] the answer has
    exactly [limit] records; when N is less, it has all N. *)
Theorem recent_newest_first (entries : list pstr) (limit : Z)
  (Hlimit : (0 <= limit)%Z) :
  let ins := accepted (init_db None) entries in
  let db := scan_all (init_db None) entries in
  let out := fetch_latest_scans db limit in
  let n := length ins in
  db = ins
  /\ out = take (Z.to_nat limit) (rev ins)
  /\ (forall i, (i < length out)%nat -> out !! i = ins !! (n - 1 - i)%nat)
  /\ ((limit <= Z.of_nat n)%Z -> length out = Z.to_nat limit)
  /\ ((Z.of_nat n < limit)%Z -> out = rev ins).
Proof.
  intros ins db out n.
  assert (Hdb : db = ins).
  { unfold db. by rewrite scan_all_accepted. }
  assert (Hout : out = take (Z.to_nat limit) (rev ins)).
  { unfold out, fetch_latest_scans. rewrite Hdb.
    destruct (limit <? 0)%Z eqn:E; [lia|done]. }
  split; [done|]. split; [done|]. split; [|split].
  - intros i Hi. rewrite Hout in *. rewrite length_take, length_rev in Hi.
    rewrite lookup_take_lt by lia. rewrite rev_alt.
    change (rev_append ins []) with (reverse ins).
    rewrite reverse_lookup by lia. f_equal. unfold n. lia.
  - intros Hn. rewrite Hout, length_take, length_rev. fold n. lia.
  - intros Hn. rewrite Hout. apply take_ge. rewrite length_rev. fold n. lia.
Qed.

End Store.

(** ** Decimal text of integers *)

Lemma dec_digits_value fuel n acc :
  n < 2 ^ N.of_nat fuel ->
  dec_value 0 (dec_digits fuel n acc) = dec_value n acc.
Proof.
  revert n acc. induction fuel as [|f IH]; intros n acc Hn.
  - simpl in *. assert (n = 0) as -> by lia. done.
  - simpl dec_digits. destruct (n <? 10) eqn:E.
    + apply N.ltb_lt in E. unfold dec_value. cbn [fold_left].
      f_equal. unfold dec_step. rewrite N.mod_small by done. lia.
    + apply N.ltb_ge in E. rewrite IH.
      * unfold dec_value. cbn [fold_left]. f_equal. unfold dec_step.
        pose proof (N.div_mod n 10 ltac:(done)) as H.
        revert H. generalize (n / 10) (n mod 10). lia.
      * rewrite Nat2N.inj_succ, N.pow_succ_r' in Hn.
        apply N.Div0.div_lt_upper_bound. lia.
Qed.

Lemma dec_digits_digits fuel n acc :
  Forall (fun c => is_digit c = true) acc ->
  Forall (fun c => is_digit c = true) (dec_digits fuel n acc).
Proof.
  revert n acc. induction fuel as [|f IH]; intros n acc Hacc; [done|].
  assert (Hd : is_digit (48 + n mod 10) = true).
  { pose proof (N.mod_upper_bound n 10 ltac:(done)) as H.
    revert H. generalize (n mod 10). intros m Hm.
    unfold is_digit, in_range. apply andb_true_intro.
    split; apply N.leb_le; lia. }
  simpl. destruct (n <? 10); [|apply IH]; by constructor.
Qed.

Lemma dec_digits_cons fuel n acc :
  acc <> [] -> dec_digits fuel n acc <> [].
Proof.
  revert n acc. induction fuel as [|f IH]; intros n acc Hacc; [done|].
  simpl. destruct (n <? 10); [done|]. by apply IH.
Qed.

Lemma str_N_value n : dec_value 0 (str_N n) = n.
Proof.
  unfold str_N. rewrite dec_digits_value; [done|].
  rewrite Nat2N.inj_succ, N2Nat.id, N.pow_succ_r'.
  destruct n as [|p]; [done|].
  pose proof (N.log2_spec (N.pos p) ltac:(done)) as [_ H].
  rewrite N.pow_succ_r' in H. done.
Qed.

Lemma str_N_digits n : Forall (fun c => is_digit c = true) (str_N n).
Proof. apply dec_digits_digits. constructor. Qed.

Lemma str_N_nonempty n : str_N n <> [].
Proof.
  unfold str_N. simpl. destruct (n <? 10); [done|]. by apply dec_digits_cons.
Qed.

Lemma zfill_digits w d :
  Forall (fun c => is_digit c = true) d ->
  Forall (fun c => is_digit c = true) (zfill w d).
Proof.
  intros Hd. unfold zfill. apply Forall_app. split; [|done].
  induction (w - length d)%nat; simpl; by constructor.
Qed.

Lemma zfill_nonempty w d : d <> [] -> zfill w d <> [].
Proof. unfold zfill. by destruct (repeat c_zero (w - length d)), d. Qed.

Lemma zfill_value w d : dec_value 0 (zfill w d) = dec_value 0 d.
Proof.
  unfold zfill, dec_value. rewrite fold_left_app. f_equal.
  induction (w - length d)%nat; simpl; done.
Qed.

Lemma scan_digits_all acc l :
  Forall (fun c => is_digit c = true) l ->
  scan_digits false acc l = Some (dec_value acc l, []).
Proof.
  intros H. revert acc. induction H as [|c l Hc _ IH]; intros acc; [done|].
  simpl. unfold is_digit in Hc. rewrite Hc. apply IH.
Qed.

Section Generator.
Context `{U : Unicode}.

Lemma mapM_int_ascii_id l :
  Forall (fun c => c < 127) l -> mapM int_ascii l = Some l.
Proof.
  intros H. apply mapM_Some. induction H as [|c l Hc _ IH]; constructor; [|done].
  unfold int_ascii. apply N.ltb_lt in Hc. by rewrite Hc.
Qed.

Lemma is_digit_ascii c : is_digit c = true -> c < 127.
Proof. unfold is_digit. intros H. bools. lia. Qed.

(** [int()] reads a run of digits as the number they stand for. *)
Lemma py_int_digits l :
  l <> [] -> Forall (fun c => is_digit c = true) l ->
  py_int l = Some (Z.of_N (dec_value 0 l)).
Proof.
  intros Hne Hd. unfold py_int.
  rewrite mapM_int_ascii_id
    by (eapply Forall_impl; [exact Hd|apply is_digit_ascii]).
  destruct l as [|c l]; [done|]. inversion Hd as [|? ? Hc Hl]; subst.
  pose proof Hc as Hc'. unfold is_digit in Hc'.
  assert (py_ctype_space c = false) as Hsp.
  { unfold py_ctype_space. bools. apply orb_false_intro.
    - unfold in_range. apply andb_false_intro2. apply N.leb_gt. lia.
    - apply N.eqb_neq. lia. }
  cbn [drop_while]. rewrite Hsp.
  assert ((c =? c_plus) = false) as ->
    by (apply N.eqb_neq; unfold c_plus; bools; lia).
  assert ((c =? c_minus) = false) as ->
    by (apply N.eqb_neq; unfold c_minus; bools; lia).
  unfold int_unsigned. rewrite Hc'. by rewrite scan_digits_all.
Qed.

Lemma py_int_minus_digits l :
  l <> [] -> Forall (fun c => is_digit c = true) l ->
  py_int (c_minus :: l) = Some (- Z.of_N (dec_value 0 l))%Z.
Proof.
  intros Hne Hd. unfold py_int.
  rewrite mapM_int_ascii_id.
  2:{ constructor; [done|]. eapply Forall_impl; [exact Hd|apply is_digit_ascii]. }
  cbn [drop_while]. change (py_ctype_space c_minus) with false.
  change (c_minus =? c_plus) with false. change (c_minus =? c_minus) with true.
  cbv iota. destruct l as [|c l]; [done|]. inversion Hd as [|? ? Hc Hl]; subst.
  unfold is_digit in Hc. unfold int_unsigned. rewrite Hc.
  by rewrite scan_digits_all.
Qed.

(** The round trip of the serial number: [int(f"{n:06d}")] is [n]. *)
Lemma py_int_format_0d w n : py_int (format_0d w n) = Some n.
Proof.
  unfold format_0d. destruct (n <? 0)%Z eqn:E.
  - rewrite py_int_minus_digits.
    + rewrite zfill_value, str_N_value. f_equal. lia.
    + apply zfill_nonempty, str_N_nonempty.
    + apply zfill_digits, str_N_digits.
  - rewrite py_int_digits.
    + rewrite zfill_value, str_N_value. f_equal. lia.
    + apply zfill_nonempty, str_N_nonempty.
    + apply zfill_digits, str_N_digits.
Qed.

(** *** Clean values *)

Lemma drop_while_head_false p c s : p c = false -> drop_while p (c :: s) = c :: s.
Proof. intros H. simpl. by rewrite H. Qed.

Lemma strip_no_space s :
  Forall (fun c => py_isspace c = false) s -> strip s = s.
Proof.
  intros H. unfold strip, lstrip, rstrip.
  assert (E : drop_while py_isspace s = s).
  { destruct H; [done|]. by apply drop_while_head_false. }
  rewrite E.
  assert (H' : Forall (fun c => py_isspace c = false) (rev s))
    by (by apply Forall_rev).
  assert (E' : drop_while py_isspace (rev s) = rev s).
  { destruct H'; [done|]. by apply drop_while_head_false. }
  rewrite E'. apply rev_involutive.
Qed.

Lemma plain_clean s : s <> [] -> Forall (fun c => plain c = true) s -> clean s.
Proof.
  intros Hne H. split; [done|]. split.
  - clear Hne. induction H as [|c s Hc _ IH]; [done|]. rewrite contains_cons.
    rewrite IH, orb_false_r. apply N.eqb_neq.
    unfold plain, is_digit, c_pipe, c_minus in *. bools; lia.
  - apply strip_no_space. eapply Forall_impl; [exact H|].
    intros c Hc. unfold plain, is_digit in Hc.
    destruct (py_isspace c) eqn:E; [|done].
    unfold py_isspace, c_minus in *. bools; lia.
Qed.

Lemma digit_plain s :
  Forall (fun c => is_digit c = true) s -> Forall (fun c => plain c = true) s.
Proof.
  intros H. eapply Forall_impl; [exact H|]. intros c Hc. unfold plain.
  by rewrite Hc.
Qed.

Lemma pad_plain w n : Forall (fun c => plain c = true) (pad w n).
Proof. apply digit_plain, zfill_digits, str_N_digits. Qed.

Lemma pad_nonempty w n : pad w n <> [].
Proof. apply zfill_nonempty, str_N_nonempty. Qed.

Lemma isoformat_clean d : clean (isoformat d).
Proof.
  apply plain_clean.
  - unfold isoformat. pose proof (pad_nonempty 4 (year d)).
    by destruct (pad 4 (year d)).
  - unfold isoformat.
    apply Forall_app; split; [apply pad_plain|]. constructor; [done|].
    apply Forall_app; split; [apply pad_plain|]. constructor; [done|].
    apply pad_plain.
Qed.

Lemma numero_lote_clean d : clean (numero_lote d).
Proof.
  apply plain_clean.
  - unfold numero_lote. pose proof (pad_nonempty 2 (day d)).
    by destruct (pad 2 (day d)).
  - unfold numero_lote. apply Forall_app; split; [apply pad_plain|].
    apply Forall_app; split; apply pad_plain.
Qed.

Lemma format_0d_clean w n : clean (format_0d w n).
Proof.
  apply plain_clean.
  - unfold format_0d. destruct (n <? 0)%Z; [done|].
    apply zfill_nonempty, str_N_nonempty.
  - unfold format_0d. destruct (n <? 0)%Z.
    + constructor; [done|]. apply digit_plain, zfill_digits, str_N_digits.
    + apply digit_plain, zfill_digits, str_N_digits.
Qed.

(** *** The description *)

Lemma contains_replace_char a b s :
  a <> b -> contains a (replace_char a b s) = false.
Proof.
  intros Hab. induction s as [|c s IH]; [done|]. simpl replace_char.
  rewrite contains_cons, IH, orb_false_r.
  destruct (c =? a) eqn:E; apply N.eqb_neq; [done|].
  apply N.eqb_neq in E. congruence.
Qed.

Lemma contains_replace_other c a b s :
  c <> b -> contains c s = false -> contains c (replace_char a b s) = false.
Proof.
  intros Hcb. induction s as [|x s IH]; [done|]. simpl replace_char.
  rewrite !contains_cons. intros [Hx Hs]%orb_false_elim.
  rewrite (IH Hs), orb_false_r. destruct (x =? a); [by apply N.eqb_neq|done].
Qed.

Lemma contains_take_false c n s :
  contains c s = false -> contains c (take n s) = false.
Proof.
  revert n. induction s as [|x s IH]; intros [|n]; try done.
  simpl take. rewrite !contains_cons. intros [Hx Hs]%orb_false_elim.
  by rewrite Hx, IH.
Qed.

Lemma contains_strip_false c s : contains c s = false -> contains c (strip s) = false.
Proof.
  intros H. unfold strip. by apply contains_rstrip_false, contains_lstrip_false.
Qed.

(** The sanitised description has no pipe. *)
Lemma desc_clean_no_pipe d : contains c_pipe (desc_clean d) = false.
Proof.
  unfold desc_clean.
  assert (H : contains c_pipe
                (strip (replace_char c_eq c_minus
                   (replace_char c_pipe c_slash
                      (replace_char c_nl c_space d)))) = false).
  { apply contains_strip_false, contains_replace_other; [done|].
    by apply contains_replace_char. }
  destruct (_ <? _)%nat; [by apply contains_take_false|done].
Qed.

(** *** Decoding a payload *)

Lemma key_value_of k v :
  contains c_eq k = false -> strip k = k ->
  key_value (k ++ c_eq :: v) = Some (k, strip v).
Proof.
  intros Hk Hs. unfold key_value. by rewrite split_once_app, Hs.
Qed.

Lemma contains_key_seg k v :
  contains c_pipe k = false -> contains c_pipe v = false ->
  contains c_pipe (k ++ c_eq :: v) = false.
Proof. intros Hk Hv. by rewrite contains_app, contains_cons, Hk, Hv. Qed.

Lemma payload_qr_join n id dc lot fec vto :
  payload_qr n id dc lot fec vto =
  join c_pipe [ k_NS ++ c_eq :: format_0d 6 n; k_PRD ++ c_eq :: id;
                k_DSC ++ c_eq :: dc; k_LOT ++ c_eq :: lot;
                k_FEC ++ c_eq :: fec; k_VTO ++ c_eq :: vto ].
Proof.
  unfold payload_qr. cbn [join]. rewrite <- !app_assoc. reflexivity.
Qed.

(** A payload whose values are clean decodes to these values. *)
Lemma parse_payload_qr n id dc lot fec vto :
  clean id -> clean dc -> clean lot -> clean fec -> clean vto ->
  parse_qr_payload (payload_qr n id dc lot fec vto) =
  Ok {| descripcion := dc; nro_serie := n; id_producto := id;
        lote := lot; creacion := fec; vencimiento := vto |}.
Proof.
  intros [Hid1 [Hid2 Hid3]] [Hdc1 [Hdc2 Hdc3]] [Hlot1 [Hlot2 Hlot3]]
         [Hfec1 [Hfec2 Hfec3]] [Hvto1 [Hvto2 Hvto3]].
  destruct (format_0d_clean 6 n) as [Hn1 [Hn2 Hn3]].
  rewrite payload_qr_join.
  set (segs := [_; _; _; _; _; _]).
  assert (Hsep : no_sep c_pipe segs).
  { unfold segs. repeat constructor; by apply contains_key_seg. }
  rewrite parse_primary_branch.
  2:{ rewrite contains_join_sep by (simpl; lia).
      apply (contains_join_elem _ _ _ (k_NS ++ c_eq :: format_0d 6 n));
        [by left|reflexivity]. }
  unfold fields.
  rewrite (build_data_ext _ segs) by (apply split_strip_join; [simpl; lia|done]).
  unfold segs, build_data. cbn [foldl]. unfold add_part.
  rewrite !key_value_of by reflexivity.
  rewrite Hn3, Hid3, Hdc3, Hlot3, Hfec3, Hvto3.
  unfold primary_fields, required, is_missing.
  cbn [List.filter]. rewrite !lookup_total_alt.
  repeat (rewrite lookup_insert_eq || (rewrite lookup_insert_ne by done)).
  destruct (format_0d 6 n) as [|? ?] eqn:En; [done|]. rewrite <- En.
  destruct id as [|? ?]; [done|]. destruct dc as [|? ?]; [done|].
  destruct lot as [|? ?]; [done|]. destruct fec as [|? ?]; [done|].
  destruct vto as [|? ?]; [done|].
  change (default inhabitant (Some ?x)) with x.
  unfold int_field. rewrite py_int_format_0d. reflexivity.
Qed.

(** C4 (as amended). Every payload the generator emits for a product id
    that is clean (not empty, no pipe, no whitespace at either end) and a
    description whose sanitised form is not empty and does not end in
    whitespace decodes, and the decoded record has the serial as an
    integer, the sanitised description, the product id, the lot and the
    two dates of the payload. *)
Theorem generated_payload_decodes (ultimo : Z) (id descripcion : pstr)
  (fecha : date) (cantidad : nat) (payload : pstr)
  (Hid : clean id)
  (Hdesc : desc_clean descripcion <> [])
  (Hstrip : strip (desc_clean descripcion) = desc_clean descripcion)
  (Hin : In payload (generar_payloads ultimo id descripcion fecha cantidad)) :
  exists i, (1 <= i <= cantidad)%nat
    /\ payload = payload_qr (ultimo + Z.of_nat i) id (desc_clean descripcion)
                   (numero_lote fecha) (isoformat fecha)
                   (isoformat (add_months6 fecha))
    /\ parse_qr_payload payload =
       Ok {| descripcion := desc_clean descripcion;
             nro_serie := ultimo + Z.of_nat i;
             id_producto := id;
             lote := numero_lote fecha;
             creacion := isoformat fecha;
             vencimiento := isoformat (add_months6 fecha) |}.
Proof.
  unfold generar_payloads in Hin. apply in_map_iff in Hin as [i [<- Hi]].
  apply in_seq in Hi. exists i. split; [lia|]. split; [done|].
  apply parse_payload_qr; try done.
  - split; [done|]. split; [apply desc_clean_no_pipe|done].
  - apply numero_lote_clean.
  - apply isoformat_clean.
  - apply isoformat_clean.
Qed.

End Generator.

(** ** The statements at sample inputs *)

(** ** A decoded record is fully populated *)

Section Outcomes.
Context `{U : Unicode}.

Lemma not_missing_lookup data k :
  is_missing data k = false -> data !!! k <> [].
Proof.
  unfold is_missing. rewrite lookup_total_alt.
  by destruct (data !! k) as [[|c v]|].
Qed.

Lemma primary_fields_populated data r :
  primary_fields data = Ok r -> populated r.
Proof.
  unfold primary_fields.
  destruct (List.filter (is_missing data) required) eqn:E; [|done].
  assert (H : forall k, In k required -> data !!! k <> []).
  { intros k Hk. apply not_missing_lookup.
    destruct (is_missing data k) eqn:Em; [|done].
    assert (In k (List.filter (is_missing data) required)) as Hin
      by (by apply List.filter_In).
    by rewrite E in Hin. }
  unfold mbind, result_bind. destruct (int_field _); [|done].
  intros [= <-]. unfold populated. simpl.
  repeat split; apply H; unfold required; simpl; tauto.
Qed.

Lemma py_or_stripped a b v :
  (forall w, a = Ok (Some w) -> strip w = w) ->
  (forall w, b = Ok (Some w) -> strip w = w) ->
  py_or a b = Ok (Some v) -> strip v = v.
Proof.
  intros Ha Hb. unfold py_or, mbind, result_bind. destruct a as [x|]; [|done].
  destruct (truthy x); [|apply Hb]. intros [= ->]. by apply Ha.
Qed.

Lemma normalize_date_nonempty v :
  v <> [] -> strip v = v -> normalize_date v <> [].
Proof.
  intros Hne Hs. unfold normalize_date. rewrite Hs.
  destruct (contains c_slash v); [|done].
  destruct (strptime_dmy v) as [d|]; [|done].
  unfold isoformat. pose proof (pad_nonempty 4 (year d)).
  by destruct (pad 4 (year d)).
Qed.

Lemma truthy_unwrap o : truthy o = true -> unwrap o <> [].
Proof. by destruct o as [[|c v]|]. Qed.

Lemma parse_legacy_populated raw r :
  parse_legacy raw = Ok r -> populated r.
Proof.
  unfold parse_legacy, mbind, result_bind.
  destruct (py_or _ _) as [ns|]; [|done].
  destruct (pick _ p_id_producto) as [prd|]; [|done].
  destruct (pick _ p_lote) as [lot|]; [|done].
  destruct (py_or (pick _ p_creacion) _) as [cre|] eqn:Ecre; [|done].
  destruct (pick _ p_vencimiento) as [vto|] eqn:Evto; [|done].
  destruct (negb (forallb truthy [ns; prd; lot; cre; vto]) || _) eqn:Ht; [done|].
  apply orb_false_elim in Ht as [Ht Hd]. apply negb_false_iff in Ht, Hd.
  simpl in Ht. repeat (apply andb_prop in Ht as [? Ht]).
  destruct (int_field _); [|done]. intros [= <-]. unfold populated. simpl.
  split; [by destruct (List.filter _ _) as [|[|? ?] ?]|].
  split; [by apply truthy_unwrap|]. split; [by apply truthy_unwrap|].
  split; apply normalize_date_nonempty; try (by apply truthy_unwrap).
  - destruct cre as [w|]; [|done]. simpl.
    eapply py_or_stripped; [| |exact Ecre]; intros ?; apply pick_stripped.
  - destruct vto as [w|]; [|done]. simpl. by eapply pick_stripped.
Qed.

(** X1. When decoding succeeds, the five text fields are not empty. *)
Lemma decode_success_populated raw r :
  parse_qr_payload raw = Ok r -> populated r.
Proof.
  unfold parse_qr_payload.
  destruct (_ && _); [apply primary_fields_populated|].
  destruct (contains c_nl _); [apply parse_legacy_populated|done].
Qed.

(** An input of the new format never raises [IndexError]. *)
Lemma primary_fields_ValueError data e :
  primary_fields data = Raise e -> exists f, e = ValueError f.
Proof.
  unfold primary_fields, mbind, result_bind, int_field.
  destruct (List.filter _ _); [|intros [= <-]; eauto].
  destruct (py_int _); [done|]. intros [= <-]. eauto.
Qed.

End Outcomes.

(** Boolean checks for the two list conditions of the statements. *)
Lemma no_sep_check c segs :
  forallb (fun s => negb (contains c s)) segs = true -> no_sep c segs.
Proof.
  intros H. unfold no_sep. induction segs as [|s segs IH]; [constructor|].
  simpl in H. apply andb_prop in H as [Hs H]. constructor; [|by apply IH].
  by apply negb_true_iff.
Qed.

Lemma no_key_check k segs :
  forallb (fun q => negb (has_key k q)) segs = true ->
  Forall (fun q => has_key k q = false) segs.
Proof.
  intros H. induction segs as [|s segs IH]; [constructor|].
  simpl in H. apply andb_prop in H as [Hs H]. constructor; [|by apply IH].
  by apply negb_true_iff.
Qed.

(** The sample inputs are ASCII text, on which the Latin-1 tables are
    those of the interpreter. *)
Section Samples.
#[local] Existing Instance latin1.

(** C2 (the code breaks the claim). On an old-format label whose lot line
    has no colon, [parse_qr_payload] raises [IndexError], which is none of
    the four decode failures. *)
Theorem legacy_line_without_colon_raises_IndexError :
  parse_qr_payload ex_legacy_no_colon = Raise IndexError.
Proof. vm_compute. reflexivity. Qed.

(** The same label with the colon decodes (dates rewritten). *)
Example legacy_label_decodes :
  parse_qr_payload ex_legacy =
  Ok {| descripcion := str "Detergente X"; nro_serie := 2;
        id_producto := str "7"; lote := str "100125";
        creacion := str "2025-01-10"; vencimiento := str "2025-07-10" |}.
Proof. vm_compute. reflexivity. Qed.

Example primary_label_decodes : parse_qr_payload ex_primary = Ok (ex_record 1).
Proof. vm_compute. reflexivity. Qed.

(** C3 (the claim as written fails). An input with a newline, and not both
    a pipe and an equals sign, that is not decoded as the old format: its
    only newline is leading, and the outcome is [UnrecognizedFormat], which
    the old-format branch gives on no text. *)
Lemma leading_newline_is_not_legacy :
  contains c_nl ex_leading_newline = true
  /\ contains c_pipe ex_leading_newline && contains c_eq ex_leading_newline = false
  /\ parse_qr_payload ex_leading_newline = Raise (ValueError UnrecognizedFormat)
  /\ parse_legacy ex_leading_newline = Raise (ValueError LegacyFieldsMissing)
  /\ parse_legacy (strip ex_leading_newline) = Raise (ValueError LegacyFieldsMissing)
  /\ (forall text, parse_qr_payload ex_leading_newline <> parse_legacy text).
Proof.
  split; [vm_compute; reflexivity|]. split; [vm_compute; reflexivity|].
  split; [vm_compute; reflexivity|]. split; [vm_compute; reflexivity|].
  split; [vm_compute; reflexivity|].
  intros text H. apply (parse_legacy_recognized text). rewrite <- H.
  vm_compute. reflexivity.
Qed.

(** C4 (the claim as written fails). For a description of one space the
    generator emits a payload with an empty DSC, which does not decode. *)
Lemma blank_description_payload_rejected :
  generar_payloads 0 (str "12") (str " ") ex_date 1
  = [str "NS=000001|PRD=12|DSC=|LOT=090226|FEC=2026-02-09|VTO=2026-08-09"]
  /\ parse_qr_payload
       (str "NS=000001|PRD=12|DSC=|LOT=090226|FEC=2026-02-09|VTO=2026-08-09")
     = Raise (ValueError (MissingFields [k_DSC])).
Proof. split; vm_compute; reflexivity. Qed.

(** The cut at 90 characters comes after the strip: a description whose
    90th character is a space is embedded with that space, and decoded
    without it. *)
Example truncated_description_loses_space :
  length (desc_clean ex_long_description) = 90%nat
  /\ exists r,
       parse_qr_payload
         (payload_qr 1 (str "12") (desc_clean ex_long_description)
            (numero_lote ex_date) (isoformat ex_date)
            (isoformat (add_months6 ex_date))) = Ok r
       /\ length (descripcion r) = 89%nat.
Proof.
  split; [vm_compute; reflexivity|].
  eexists. split; [vm_compute; reflexivity|]. vm_compute. reflexivity.
Qed.

(** C9 (the claim as written fails). A serial text with a minus sign
    decodes to a negative [nro_serie]. *)
Lemma negative_serial_decodes :
  parse_qr_payload ex_negative = Ok (ex_record (-5))
  /\ (nro_serie (ex_record (-5)) < 0)%Z.
Proof. split; [vm_compute; reflexivity|done]. Qed.

(** The statements above, at sample inputs that meet their hypotheses. *)

(** A label whose serial is 2^63 decodes, and its triple is new to the
    empty table, yet [save_scan] answers neither OK nor DUP: binding the
    serial raises [OverflowError] and no row is added. The same happens,
    with [UnicodeEncodeError], for a description with a lone surrogate. *)
Lemma unbindable_record_raises :
  (exists r, parse_qr_payload ex_serial_2_63 = Ok r
     /\ nro_serie r = (2 ^ 63)%Z
     /\ existsb (same_key r) [] = false)
  /\ save_scan [] ex_serial_2_63 = Raise OverflowError
  /\ on_scan_return [] ex_serial_2_63 = ([], Some (Raise OverflowError))
  /\ (exists r, parse_qr_payload ex_surrogate = Ok r
        /\ existsb (same_key r) [] = false)
  /\ save_scan [] ex_surrogate = Raise UnicodeEncodeError.
Proof.
  split; [eexists; split; [vm_compute; reflexivity|split; reflexivity]|].
  split; [vm_compute; reflexivity|].
  split; [vm_compute; reflexivity|].
  split; [eexists; split; [vm_compute; reflexivity|reflexivity]|].
  vm_compute; reflexivity.
Qed.

Lemma insert_then_duplicate_witness :
  (parse_qr_payload ex_primary = Ok (ex_record 1)
   /\ parse_qr_payload ex_same_triple = Ok ex_record_other
   /\ bindable (ex_record 1) = true
   /\ bindable ex_record_other = true
   /\ same_key (ex_record 1) ex_record_other = true
   /\ existsb (same_key (ex_record 1)) [] = false)
  /\ exists db1 db2,
       save_scan [] ex_primary = Ok (db1, (OK, msg_ok (ex_record 1)))
       /\ save_scan db1 ex_same_triple = Ok (db2, (DUP, msg_dup ex_record_other))
       /\ db1 = [] ++ [ex_record 1] /\ db2 = db1
       /\ length db2 = 1%nat
       /\ forall entries,
            save_scan (scan_all db1 entries) ex_same_triple
            = Ok (scan_all db1 entries, (DUP, msg_dup ex_record_other)).
Proof.
  split.
  - repeat split; vm_compute; reflexivity.
  - apply (insert_then_duplicate [] ex_primary ex_same_triple
             (ex_record 1) ex_record_other); vm_compute; reflexivity.
Defined.

Lemma generated_payload_decodes_witness :
  (clean (str "12")
   /\ desc_clean (str "Bolsa 5kg") <> []
   /\ strip (desc_clean (str "Bolsa 5kg")) = desc_clean (str "Bolsa 5kg")
   /\ In ex_second (generar_payloads 0 (str "12") (str "Bolsa 5kg") ex_date 3))
  /\ exists i, (1 <= i <= 3)%nat
       /\ ex_second = payload_qr (0 + Z.of_nat i) (str "12")
                        (desc_clean (str "Bolsa 5kg")) (numero_lote ex_date)
                        (isoformat ex_date) (isoformat (add_months6 ex_date))
       /\ parse_qr_payload ex_second =
          Ok {| descripcion := desc_clean (str "Bolsa 5kg");
                nro_serie := 0 + Z.of_nat i;
                id_producto := str "12";
                lote := numero_lote ex_date;
                creacion := isoformat ex_date;
                vencimiento := isoformat (add_months6 ex_date) |}.
Proof.
  assert (H1 : clean (str "12")).
  { split; [discriminate|]. split; vm_compute; reflexivity. }
  assert (H2 : desc_clean (str "Bolsa 5kg") <> []).
  { vm_compute. discriminate. }
  assert (H3 : strip (desc_clean (str "Bolsa 5kg")) = desc_clean (str "Bolsa 5kg")).
  { vm_compute. reflexivity. }
  assert (H4 : In ex_second
                 (generar_payloads 0 (str "12") (str "Bolsa 5kg") ex_date 3)).
  { vm_compute. right. left. reflexivity. }
  split; [exact (conj H1 (conj H2 (conj H3 H4)))|].
  exact (generated_payload_decodes 0 (str "12") (str "Bolsa 5kg") ex_date 3
           ex_second H1 H2 H3 H4).
Defined.

Lemma decode_order_independent_witness :
  (no_sep c_pipe ex_segs /\ keys_once ex_segs = true
   /\ Permutation ex_segs (rev ex_segs)
   /\ no_sep c_pipe ex_repeated_segs /\ (2 <= length ex_repeated_segs)%nat
   /\ key_value (str " NS = 000001 ") = Some (k_NS, str "000001")
   /\ Forall (fun q => has_key k_NS q = false) (drop 4 ex_repeated_segs)
   /\ last_value k_NS ex_repeated_segs = Some (str "000001")
   /\ last_value k_PRD ex_repeated_segs = Some (str "12")
   /\ last_value k_DSC ex_repeated_segs = Some (str "Bolsa 5kg")
   /\ last_value k_LOT ex_repeated_segs = Some (str "090226")
   /\ last_value k_FEC ex_repeated_segs = Some (str "2026-02-09")
   /\ last_value k_VTO ex_repeated_segs = Some (str "2026-08-09"))
  /\ parse_qr_payload (join c_pipe (rev ex_segs))
     = parse_qr_payload (join c_pipe ex_segs)
  /\ fields (join c_pipe ex_repeated_segs) !! k_NS = Some (str "000001")
  /\ (forall r, parse_qr_payload (join c_pipe ex_repeated_segs) = Ok r ->
        py_int (str "000001") = Some (nro_serie r))
  /\ parse_qr_payload (join c_pipe ex_repeated_segs) = Ok (ex_record 1).
Proof.
  assert (H1 : no_sep c_pipe ex_segs)
    by (apply no_sep_check; vm_compute; reflexivity).
  assert (H2 : keys_once ex_segs = true) by (vm_compute; reflexivity).
  assert (H3 : Permutation ex_segs (rev ex_segs)) by apply Permutation_rev.
  assert (H4 : no_sep c_pipe ex_repeated_segs)
    by (apply no_sep_check; vm_compute; reflexivity).
  assert (H5 : (2 <= length ex_repeated_segs)%nat) by (vm_compute; lia).
  assert (H6 : key_value (str " NS = 000001 ") = Some (k_NS, str "000001"))
    by (vm_compute; reflexivity).
  assert (H7 : Forall (fun q => has_key k_NS q = false)
                 (drop 4 ex_repeated_segs))
    by (apply no_key_check; vm_compute; reflexivity).
  assert (L1 : last_value k_NS ex_repeated_segs = Some (str "000001"))
    by (vm_compute; reflexivity).
  assert (L2 : last_value k_PRD ex_repeated_segs = Some (str "12"))
    by (vm_compute; reflexivity).
  assert (L3 : last_value k_DSC ex_repeated_segs = Some (str "Bolsa 5kg"))
    by (vm_compute; reflexivity).
  assert (L4 : last_value k_LOT ex_repeated_segs = Some (str "090226"))
    by (vm_compute; reflexivity).
  assert (L5 : last_value k_FEC ex_repeated_segs = Some (str "2026-02-09"))
    by (vm_compute; reflexivity).
  assert (L6 : last_value k_VTO ex_repeated_segs = Some (str "2026-08-09"))
    by (vm_compute; reflexivity).
  split.
  { exact (conj H1 (conj H2 (conj H3 (conj H4 (conj H5 (conj H6 (conj H7
             (conj L1 (conj L2 (conj L3 (conj L4 (conj L5 L6)))))))))))). }
  destruct (decode_order_independent ex_segs (rev ex_segs)
              (take 3 ex_repeated_segs) (drop 4 ex_repeated_segs)
              ex_repeated_segs (str " NS = 000001 ") k_NS (str "000001")
              (str "000001") (str "12") (str "Bolsa 5kg") (str "090226")
              (str "2026-02-09") (str "2026-08-09")) as [Ha [Hb Hc]].
  destruct (Hb H4 H5 H6 H7) as [Hb1 [_ Hb3]].
  split; [exact (Ha H1 H2 H3)|]. split; [exact Hb1|]. split.
  { intros r Hr. exact (proj1 (Hb3 r Hr) eq_refl). }
  exact (Hc H4 H5 L1 L2 L3 L4 L5 L6
           ltac:(discriminate) ltac:(discriminate) ltac:(discriminate)
           ltac:(discriminate) ltac:(discriminate) ltac:(discriminate)).
Defined.

Lemma missing_fields_listed_witness :
  (contains c_pipe ex_missing_vto && contains c_eq ex_missing_vto = true
   /\ existsb (is_missing (fields ex_missing_vto)) required = true)
  /\ parse_qr_payload ex_missing_vto = Raise (ValueError (MissingFields [k_VTO])).
Proof.
  assert (H1 : contains c_pipe ex_missing_vto && contains c_eq ex_missing_vto = true)
    by (vm_compute; reflexivity).
  assert (H2 : existsb (is_missing (fields ex_missing_vto)) required = true)
    by (vm_compute; reflexivity).
  split; [done|].
  destruct (missing_fields_listed ex_missing_vto H1 H2) as [H _].
  rewrite H. vm_compute. reflexivity.
Defined.


Lemma recent_newest_first_witness :
  (0 <= 2)%Z
  /\ fetch_latest_scans
       (scan_all (init_db None) [ex_primary; ex_second; ex_primary; ex_third]) 2
     = [ex_record 3; ex_record 2].
Proof.
  split; [lia|].
  destruct (recent_newest_first [ex_primary; ex_second; ex_primary; ex_third] 2
              ltac:(lia)) as [_ [H _]].
  rewrite H. vm_compute. reflexivity.
Defined.

Lemma nro_serie_of_serial_text_witness :
  parse_qr_payload ex_primary = Ok (ex_record 1)
  /\ exists ns, serial_text ex_primary = Some ns
       /\ py_int ns = Some 1%Z
       /\ (contains c_minus ns = false -> (0 <= 1)%Z).
Proof.
  assert (H : parse_qr_payload ex_primary = Ok (ex_record 1))
    by (vm_compute; reflexivity).
  split; [done|]. exact (nro_serie_of_serial_text ex_primary (ex_record 1) H).
Defined.

Lemma decode_ignores_surrounding_whitespace_witness :
  (forallb py_isspace [c_nl; c_space] = true
   /\ forallb py_isspace [c_space; c_nl] = true)
  /\ parse_qr_payload ([c_nl; c_space] ++ ex_primary ++ [c_space; c_nl])
     = parse_qr_payload ex_primary.
Proof.
  split; [split; reflexivity|].
  by destruct (decode_ignores_surrounding_whitespace [c_nl; c_space] ex_primary
                 [c_space; c_nl] eq_refl eq_refl) as [_ [H _]].
Defined.

End Samples.

(** * Further properties of the decoder *)

Section DecoderMore.
Context `{U : Unicode}.

Lemma contains_eq_key_value s : contains c_eq s = true <-> key_value s <> None.
Proof.
  unfold key_value. destruct (split_once c_eq s) as [[k v]|] eqn:E.
  - apply split_once_Some in E as [-> _]. rewrite contains_app, contains_cons.
    unfold c_eq at 2. rewrite N.eqb_refl, orb_true_r. done.
  - apply split_once_None_inv in E. rewrite E. done.
Qed.

Lemma existsb_In_contains c segs :
  existsb (contains c) segs = true -> exists s, In s segs /\ contains c s = true.
Proof. intros H. by apply existsb_exists in H. Qed.

(** An input joined from two or more segments, one of which has an equals
    sign, is read as the new format, from the dict of the segments. *)
Lemma parse_join_eq segs :
  (2 <= length segs)%nat -> no_sep c_pipe segs ->
  existsb (contains c_eq) segs = true ->
  parse_qr_payload (join c_pipe segs) = primary_fields (build_data segs).
Proof.
  intros Hlen Hsep Heq. rewrite parse_primary_branch.
  - unfold fields. f_equal. apply build_data_ext. by apply split_strip_join.
  - rewrite contains_join_sep by done. simpl.
    apply existsb_In_contains in Heq as [s [Hin Hs]].
    by apply (contains_join_elem _ _ _ s).
Qed.

(** The value of a key comes from the segments that set this key. *)
Lemma build_data_filter parts k :
  build_data parts !! k = build_data (List.filter (has_key k) parts) !! k.
Proof.
  induction parts as [|q parts IH] using rev_ind; [done|].
  rewrite List.filter_app. simpl. destruct (has_key k q) eqn:Hq.
  - rewrite !build_data_snoc. unfold has_key in Hq.
    destruct (key_value q) as [[k' v]|] eqn:E; [|done].
    apply bool_decide_eq_true in Hq as ->.
    by rewrite !(add_part_same _ q k v E).
  - rewrite app_nil_r, build_data_snoc, add_part_other by done. apply IH.
Qed.

(** X3. A segment that sets no required key (a segment without an equals sign,
    or one with a key of its own) may be put anywhere in an input of the
    new format, or taken out of it: the outcome is the same. *)
Theorem other_segments_ignored (pre post : list pstr) (x : pstr)
  (Hsep : no_sep c_pipe (pre ++ x :: post))
  (Hlen : (2 <= length (pre ++ post))%nat)
  (Heq : existsb (contains c_eq) (pre ++ post) = true)
  (Hx : forallb (fun k => negb (has_key k x)) required = true) :
  parse_qr_payload (join c_pipe (pre ++ x :: post))
  = parse_qr_payload (join c_pipe (pre ++ post)).
Proof.
  assert (Hsep' : no_sep c_pipe (pre ++ post)).
  { unfold no_sep in *. apply Forall_app in Hsep as [H1 H2].
    apply Forall_app. split; [done|]. by inversion H2. }
  rewrite !parse_join_eq; try done.
  - apply primary_fields_ext. intros k Hk.
    rewrite (build_data_filter (pre ++ x :: post)), (build_data_filter (pre ++ post)).
    rewrite !List.filter_app. simpl.
    rewrite forallb_forall in Hx. specialize (Hx k Hk).
    apply negb_true_iff in Hx. by rewrite Hx.
  - rewrite length_app in *. simpl. lia.
  - rewrite existsb_app in *. simpl.
    apply orb_prop in Heq as [E | E]; rewrite E; [done|]. by rewrite !orb_true_r.
Qed.

(** X4. The decoder sees the segments of an input of the new format only
    through their trimmed keys and values: two inputs whose segments give,
    one by one, the same key and value have the same outcome. *)
Theorem trimmed_pairs_decide (segs segs' : list pstr)
  (Hsep : no_sep c_pipe segs) (Hsep' : no_sep c_pipe segs')
  (Hlen : (2 <= length segs)%nat)
  (Heq : existsb (contains c_eq) segs = true)
  (Hkv : map key_value segs = map key_value segs') :
  parse_qr_payload (join c_pipe segs) = parse_qr_payload (join c_pipe segs').
Proof.
  assert (Hlen' : (2 <= length segs')%nat).
  { rewrite <- (length_map key_value segs'), <- Hkv, length_map. done. }
  assert (Heq' : existsb (contains c_eq) segs' = true).
  { apply existsb_In_contains in Heq as [s [Hin Hs]].
    apply contains_eq_key_value in Hs.
    assert (In (key_value s) (map key_value segs')) as Hin'
      by (rewrite <- Hkv; by apply in_map).
    apply in_map_iff in Hin' as [s' [E Hs']].
    apply existsb_exists. exists s'. split; [done|].
    apply contains_eq_key_value. by rewrite E. }
  rewrite !parse_join_eq by done. f_equal. by apply build_data_ext.
Qed.

(** X2. On an input of the new format every failure is [MissingFields], with
    the absent or empty required keys, or, when no key is missing,
    [InvalidSerial] with the trimmed NS value, which [int()] rejects. No
    such input raises [IndexError]. *)
Theorem primary_failures (raw : pstr) (e : exn)
  (Hformat : contains c_pipe raw && contains c_eq raw = true)
  (Hfail : parse_qr_payload raw = Raise e) :
  let missing := List.filter (is_missing (fields raw)) required in
  (missing <> [] /\ e = ValueError (MissingFields missing))
  \/ (missing = [] /\ e = ValueError (InvalidSerial (fields raw !!! k_NS))
      /\ py_int (fields raw !!! k_NS) = None).
Proof.
  intros missing. rewrite parse_primary_branch in Hfail by done.
  unfold primary_fields in Hfail. fold missing in Hfail.
  destruct missing as [|k l]; [right|left].
  - unfold mbind, result_bind, int_field in Hfail.
    destruct (py_int (fields raw !!! k_NS)); [done|].
    by injection Hfail as <-.
  - by injection Hfail as <-.
Qed.

(** X5. A serial written with leading zeros decodes to its number: when the
    NS value is zeros followed by the decimal digits of [n], a successful
    decode has [nro_serie = n]. *)
Theorem leading_zeros_keep_value (raw : pstr) (r : scan) (zeros : nat) (n : N)
  (Hformat : contains c_pipe raw && contains c_eq raw = true)
  (Hns : fields raw !! k_NS = Some (repeat c_zero zeros ++ str_N n))
  (Hok : parse_qr_payload raw = Ok r) :
  nro_serie r = Z.of_N n.
Proof.
  rewrite parse_primary_branch in Hok by done.
  apply primary_fields_serial in Hok as [ns [E1 E2]].
  rewrite Hns in E1. injection E1 as <-.
  assert (Hd : Forall (fun c => is_digit c = true) (repeat c_zero zeros ++ str_N n)).
  { apply Forall_app. split; [|apply str_N_digits].
    clear. induction zeros; simpl; [constructor|by constructor]. }
  rewrite py_int_digits in E2.
  - injection E2 as <-. f_equal. unfold dec_value. rewrite fold_left_app.
    fold (dec_value 0 (repeat c_zero zeros)).
    replace (dec_value 0 (repeat c_zero zeros)) with 0.
    + apply str_N_value.
    + clear. induction zeros; simpl; done.
  - pose proof (str_N_nonempty n). by destruct (repeat c_zero zeros), (str_N n).
  - done.
Qed.

End DecoderMore.

(** * Further properties of the old format *)

Section LegacyMore.
Context `{U : Unicode}.

Lemma parse_branches raw :
  parse_qr_payload raw =
    if contains c_pipe raw && contains c_eq raw then parse_primary (strip raw)
    else if contains c_nl (strip raw) then parse_legacy (strip raw)
    else Raise (ValueError UnrecognizedFormat).
Proof. unfold parse_qr_payload. by rewrite !contains_strip by reflexivity. Qed.

Lemma pick_IndexError lines p e :
  pick lines p = Raise e ->
  exists l, In l lines /\ startswith (lower l) (lower p) = true
    /\ contains c_colon l = false.
Proof.
  induction lines as [|l ls IH]; simpl; [done|].
  destruct (startswith (lower l) (lower p)) eqn:Es.
  - destruct (split_once c_colon l) as [[k v]|] eqn:Ec; [done|]. intros _.
    exists l. split; [by left|]. split; [done|]. by apply split_once_None_inv.
  - intros H. destruct (IH H) as [l' [Hin H']]. exists l'. split; [by right|done].
Qed.

Lemma py_or_Raise a b e :
  py_or a b = Raise e -> a = Raise e \/ b = Raise e.
Proof.
  unfold py_or, mbind, result_bind. destruct a as [x|e']; [|by left].
  destruct (truthy x); [done|by right].
Qed.

(** X6. The first line with the prefix decides the field, whatever lines
    follow: a later line with the same prefix is not read. *)
Theorem pick_first_line_wins (pre post : list pstr) (l prefix k v : pstr)
  (Hpre : Forall (fun x => startswith (lower x) (lower prefix) = false) pre)
  (Hl : startswith (lower l) (lower prefix) = true)
  (Hv : split_once c_colon l = Some (k, v)) :
  pick (pre ++ l :: post) prefix = Ok (Some (strip v)).
Proof.
  induction Hpre as [|x pre Hx _ IH]; simpl.
  - by rewrite Hl, Hv.
  - by rewrite Hx.
Qed.

(** X7. [parse_qr_payload] raises [IndexError] only on an input of the old
    format that has a line starting with one of the field prefixes and
    holding no colon. *)
Theorem IndexError_only_without_colon (raw : pstr)
  (Hfail : parse_qr_payload raw = Raise IndexError) :
  contains c_pipe raw && contains c_eq raw = false
  /\ contains c_nl (strip raw) = true
  /\ exists l p, In l (legacy_lines (strip raw)) /\ In p legacy_prefixes
       /\ startswith (lower l) (lower p) = true
       /\ contains c_colon l = false.
Proof.
  rewrite parse_branches in Hfail.
  destruct (contains c_pipe raw && contains c_eq raw) eqn:Ef.
  { apply primary_fields_ValueError in Hfail as [f [=]]. }
  split; [done|].
  destruct (contains c_nl (strip raw)); [|done]. split; [done|].
  set (lines := legacy_lines (strip raw)).
  assert (Hp : forall p, In p legacy_prefixes -> pick lines p = Raise IndexError ->
    exists l p, In l lines /\ In p legacy_prefixes
      /\ startswith (lower l) (lower p) = true /\ contains c_colon l = false).
  { intros p Hin H. apply pick_IndexError in H as [l H]. exists l, p. tauto. }
  unfold parse_legacy, mbind, result_bind in Hfail. fold lines in Hfail.
  destruct (py_or (pick lines p_num_de_serie) _) as [ns|e] eqn:E1.
  2:{ injection Hfail as ->.
      apply py_or_Raise in E1 as [E1|E1].
      - apply (Hp p_num_de_serie); [|done]. unfold legacy_prefixes. simpl. tauto.
      - apply py_or_Raise in E1 as [E1|E1].
        + apply (Hp p_n_de_serie); [|done]. unfold legacy_prefixes. simpl. tauto.
        + apply (Hp p_no_de_serie); [|done]. unfold legacy_prefixes. simpl. tauto. }
  destruct (pick lines p_id_producto) as [prd|e] eqn:E2.
  2:{ injection Hfail as ->. apply (Hp p_id_producto); [|done].
      unfold legacy_prefixes. simpl. tauto. }
  destruct (pick lines p_lote) as [lot|e] eqn:E3.
  2:{ injection Hfail as ->. apply (Hp p_lote); [|done].
      unfold legacy_prefixes. simpl. tauto. }
  destruct (py_or (pick lines p_creacion) _) as [cre|e] eqn:E4.
  2:{ injection Hfail as ->. apply py_or_Raise in E4 as [E4|E4].
      - apply (Hp p_creacion); [|done]. unfold legacy_prefixes. simpl. tauto.
      - apply (Hp p_creacion_ac); [|done]. unfold legacy_prefixes. simpl. tauto. }
  destruct (pick lines p_vencimiento) as [vto|e] eqn:E5.
  2:{ injection Hfail as ->. apply (Hp p_vencimiento); [|done].
      unfold legacy_prefixes. simpl. tauto. }
  destruct (_ || _); [done|].
  unfold int_field in Hfail. by destruct (py_int (unwrap ns)).
Qed.

(** X8. In the old format the description is the first line that starts with
    none of the known prefixes, wherever it stands among the lines; so a
    decoded description never starts with a field prefix. *)
Theorem legacy_description_is_first_free_line (raw : pstr) (r : scan)
  (Hformat : contains c_pipe raw && contains c_eq raw = false)
  (Hok : parse_qr_payload raw = Ok r) :
  exists pre post,
    legacy_lines (strip raw) = pre ++ descripcion r :: post
    /\ Forall (fun l => known_line l = true) pre
    /\ known_line (descripcion r) = false.
Proof.
  rewrite parse_branches, Hformat in Hok.
  destruct (contains c_nl (strip raw)); [|done].
  unfold parse_legacy, mbind, result_bind in Hok.
  set (lines := legacy_lines (strip raw)) in *.
  destruct (py_or (pick lines p_num_de_serie) _) as [ns|]; [|done].
  destruct (pick lines p_id_producto) as [prd|]; [|done].
  destruct (pick lines p_lote) as [lot|]; [|done].
  destruct (py_or (pick lines p_creacion) _) as [cre|]; [|done].
  destruct (pick lines p_vencimiento) as [vto|]; [|done].
  destruct (List.filter _ lines) as [|d t] eqn:Ef.
  { simpl in Hok. by rewrite orb_true_r in Hok. }
  destruct (_ || _); [done|]. destruct (int_field _); [|done].
  injection Hok as <-. simpl.
  apply filter_head in Ef as [pre [post [-> [Hp Hd]]]].
  exists pre, post. split; [done|]. unfold known_line. split.
  - eapply Forall_impl; [exact Hp|]. intros l Hl. by apply negb_false_iff.
  - by apply negb_true_iff.
Qed.

End LegacyMore.

(** * Further properties of the store and of the scan events *)

Section StoreMore.
Context `{U : Unicode}.

Lemma same_key_triple a b : same_key a b = true <-> triple a = triple b.
Proof.
  rewrite same_key_true. unfold triple. split.
  - by intros [-> [-> ->]].
  - intros [= -> -> ->]. done.
Qed.

Lemma existsb_same_key_triple r db :
  existsb (same_key r) db = true <-> In (triple r) (map triple db).
Proof.
  rewrite existsb_exists, in_map_iff. split.
  - intros [x [Hx Hk]]. exists x. split; [|done].
    symmetry. by apply same_key_triple.
  - intros [x [Hk Hx]]. exists x. split; [done|]. by apply same_key_triple.
Qed.

Lemma parse_empty : parse_qr_payload [] = Raise (ValueError UnrecognizedFormat).
Proof. reflexivity. Qed.

(** What one scan event does to the table, from the decoding of the
    entry. *)
Lemma on_scan_return_Ok db entry r :
  parse_qr_payload (strip entry) = Ok r ->
  fst (on_scan_return db entry)
  = if bindable r && negb (existsb (same_key r) db) then db ++ [r] else db.
Proof.
  intros Hr. unfold on_scan_return.
  assert (Hne : nonempty (strip entry) = true).
  { destruct (strip entry); [by rewrite parse_empty in Hr|done]. }
  rewrite Hne. destruct (bindable r) eqn:Hb.
  - destruct (existsb (same_key r) db) eqn:Hk.
    + by rewrite (save_scan_dup _ _ _ Hr Hb Hk).
    + by rewrite (save_scan_new _ _ _ Hr Hb Hk).
  - destruct (save_scan_unbound db _ _ Hr Hb) as [e E]. by rewrite E.
Qed.

Lemma on_scan_return_Raise db entry e :
  parse_qr_payload (strip entry) = Raise e -> fst (on_scan_return db entry) = db.
Proof.
  intros Hr. unfold on_scan_return. destruct (nonempty (strip entry)); [|done].
  by rewrite (save_scan_raise _ _ _ Hr).
Qed.

Lemma scan_all_keeps_key db entries r :
  existsb (same_key r) db = true ->
  existsb (same_key r) (scan_all db entries) = true.
Proof.
  intros H. rewrite scan_all_accepted, existsb_app, H. done.
Qed.

Lemma same_key_refl r : same_key r r = true.
Proof. by apply same_key_triple. Qed.

(** After a run, the triple of every entry that decodes to a record that
    can be bound is in the table. *)
Lemma scan_all_has_key db entries e r :
  In e entries -> parse_qr_payload (strip e) = Ok r -> bindable r = true ->
  existsb (same_key r) (scan_all db entries) = true.
Proof.
  revert db. induction entries as [|x rest IH]; intros db; [done|].
  intros [->|Hin] Hr Hb; rewrite scan_all_cons.
  - apply scan_all_keeps_key. rewrite (on_scan_return_Ok _ _ _ Hr), Hb.
    destruct (existsb (same_key r) db) eqn:E; [done|]. simpl.
    rewrite existsb_app. simpl. by rewrite same_key_refl, orb_true_r.
  - by apply IH.
Qed.

Lemma scan_all_nothing_new db entries :
  (forall e r, In e entries -> parse_qr_payload (strip e) = Ok r ->
               bindable r = true -> existsb (same_key r) db = true) ->
  scan_all db entries = db.
Proof.
  induction entries as [|x rest IH]; intros H; [done|].
  rewrite scan_all_cons.
  assert (E : fst (on_scan_return db x) = db).
  { destruct (parse_qr_payload (strip x)) as [r|e] eqn:Hr.
    - rewrite (on_scan_return_Ok _ _ _ Hr).
      destruct (bindable r) eqn:Hb; [|done].
      by rewrite (H x r (or_introl eq_refl) Hr Hb).
    - by apply (on_scan_return_Raise _ _ e). }
  rewrite E. apply IH. intros e r Hin. apply H. by right.
Qed.

(** X9. The uniqueness constraint is an invariant of the scan events: a table
    in which no two rows share (id_producto, nro_serie, lote) stays so
    after any run of events. *)
Theorem unique_triples_kept (db : store) (entries : list pstr)
  (Huniq : NoDup (map triple db)) :
  NoDup (map triple (scan_all db entries)).
Proof.
  revert db Huniq. induction entries as [|x rest IH]; intros db Huniq; [done|].
  rewrite scan_all_cons. apply IH.
  destruct (on_scan_return_cases db x) as [[r [m [_ [Hk E]]]]|[E _]].
  - rewrite E. simpl. rewrite map_app. apply NoDup_app. split; [done|]. split.
    + intros t Ht Ht'. apply list_elem_of_In in Ht, Ht'.
      destruct Ht' as [<-|[]].
      apply existsb_same_key_triple in Ht. congruence.
    + apply NoDup_singleton.
  - by rewrite E.
Qed.

(** X10. The table only grows: after a run of events it is the table before
    followed by new rows, at most one for each event, and each new row is
    the decoding of one of the entries. *)
Theorem table_only_grows (db : store) (entries : list pstr) :
  exists added,
    scan_all db entries = db ++ added
    /\ (length added <= length entries)%nat
    /\ Forall (fun r => exists e, In e entries
                 /\ parse_qr_payload (strip e) = Ok r) added.
Proof.
  revert db. induction entries as [|x rest IH]; intros db.
  - exists []. simpl. rewrite app_nil_r. by repeat split.
  - rewrite scan_all_cons.
    destruct (on_scan_return_cases db x) as [[r [m [Hr [_ E]]]]|[E _]].
    + rewrite E. simpl. destruct (IH (db ++ [r])) as [added [E1 [E2 E3]]].
      exists (r :: added). rewrite E1, <- app_assoc. split; [done|].
      split; [simpl; lia|]. constructor.
      * exists x. split; [by left|done].
      * eapply Forall_impl; [exact E3|]. intros r' [e [Hin He]].
        exists e. split; [by right|done].
    + rewrite E. destruct (IH db) as [added [E1 [E2 E3]]].
      exists added. split; [done|]. split; [simpl; lia|].
      eapply Forall_impl; [exact E3|]. intros r' [e [Hin He]].
      exists e. split; [by right|done].
Qed.

(** X11. Feeding the same entries again adds nothing: every one of them is
    answered DUP or fails as before. *)
Theorem rescanning_adds_nothing (db : store) (entries : list pstr) :
  scan_all (scan_all db entries) entries = scan_all db entries.
Proof.
  apply scan_all_nothing_new. intros e r Hin Hr. by eapply scan_all_has_key.
Qed.

(** X12. An entry of whitespace only is dropped without a message; an entry
    that does not decode leaves the table as it is and its exception is
    shown. *)
Theorem rejected_entries_leave_table (db : store) (entry : pstr) :
  (forallb py_isspace entry = true -> on_scan_return db entry = (db, None))
  /\ (forall e, strip entry <> [] -> parse_qr_payload entry = Raise e ->
        on_scan_return db entry = (db, Some (Raise e))).
Proof.
  split.
  - intros H. unfold on_scan_return, strip, lstrip.
    by rewrite (drop_while_all _ _ H).
  - intros e Hne Hr. unfold on_scan_return.
    assert (Hn : nonempty (strip entry) = true) by (by destruct (strip entry)).
    rewrite Hn. rewrite <- parse_qr_payload_strip in Hr.
    by rewrite (save_scan_raise _ _ _ Hr).
Qed.

(** X22. An entry whose record cannot be bound to the INSERT leaves the
    table as it is and its exception is shown: [UnicodeEncodeError] when
    the description has a lone surrogate, [OverflowError] when the
    description is fine and the serial is outside the signed 64-bit
    range. *)
Theorem unbindable_entries_leave_table (db : store) (entry : pstr) (r : scan)
  (Hr : parse_qr_payload (strip entry) = Ok r)
  (Hb : bindable r = false) :
  exists e,
    save_scan db (strip entry) = Raise e
    /\ on_scan_return db entry = (db, Some (Raise e))
    /\ (e = OverflowError \/ e = UnicodeEncodeError)
    /\ (encodable (descripcion r) = false -> e = UnicodeEncodeError)
    /\ (encodable (descripcion r) = true -> int64 (nro_serie r) = false ->
        e = OverflowError).
Proof.
  assert (Hne : nonempty (strip entry) = true).
  { destruct (strip entry); [by rewrite parse_empty in Hr|done]. }
  assert (Hs : forall e, bind_parameters r = Raise e ->
                 save_scan db (strip entry) = Raise e
                 /\ on_scan_return db entry = (db, Some (Raise e))).
  { intros e He.
    assert (E : save_scan db (strip entry) = Raise e).
    { unfold save_scan, insert_scan, mbind, result_bind. by rewrite Hr, He. }
    split; [done|]. unfold on_scan_return. by rewrite Hne, E. }
  destruct (bind_parameters_cases r) as [[E _]|[_ Hcases]]; [congruence|].
  assert (H1 : encodable (descripcion r) = false ->
               bind_parameters r = Raise UnicodeEncodeError).
  { intros E. unfold bind_parameters, bind_text, mbind, result_bind.
    by rewrite E. }
  assert (H2 : encodable (descripcion r) = true ->
               int64 (nro_serie r) = false ->
               bind_parameters r = Raise OverflowError).
  { intros E1 E2.
    unfold bind_parameters, bind_text, bind_int, mbind, result_bind.
    by rewrite E1, E2. }
  destruct Hcases as [E|E]; destruct (Hs _ E) as [Hs1 Hs2]; eexists;
    (split; [exact Hs1|]); (split; [exact Hs2|]).
  - split; [by left|]. split; [|done].
    intros E1. rewrite (H1 E1) in E. done.
  - split; [by right|]. split; [done|].
    intros E1 E2. rewrite (H2 E1 E2) in E. done.
Qed.

(** X13. Whitespace that a scanner sends before or after the payload (the line
    end of the Enter key, for one) does not change what the event does. *)
Theorem scanner_whitespace_ignored (db : store) (pre core post : pstr)
  (Hpre : forallb py_isspace pre = true)
  (Hpost : forallb py_isspace post = true) :
  on_scan_return db (pre ++ core ++ post) = on_scan_return db core.
Proof. unfold on_scan_return. by rewrite strip_around. Qed.

(** X14. An accepted scan is the first record of the next query: after an event
    answered OK, [fetch_latest_scans] with a limit of one or more returns
    the decoded record, then what it returned before with one less. *)
Theorem accepted_scan_is_latest (db db' : store) (entry m : pstr) (limit : Z)
  (Hok : on_scan_return db entry = (db', Some (Ok (OK, m))))
  (Hlimit : (1 <= limit)%Z) :
  exists r, parse_qr_payload entry = Ok r
    /\ db' = db ++ [r]
    /\ fetch_latest_scans db' limit = r :: fetch_latest_scans db (limit - 1).
Proof.
  destruct (on_scan_return_cases db entry) as [[r [m' [Hr [_ E]]]]|[_ E]].
  2:{ rewrite Hok in E. by destruct (E m). }
  rewrite Hok in E. injection E as -> _. exists r.
  rewrite parse_qr_payload_strip in Hr. split; [done|]. split; [done|].
  unfold fetch_latest_scans.
  destruct (limit <? 0)%Z eqn:E1; [lia|]. destruct (limit - 1 <? 0)%Z eqn:E2; [lia|].
  rewrite rev_app_distr. simpl.
  replace (Z.to_nat limit) with (S (Z.to_nat (limit - 1))) by lia. done.
Qed.

(** X15. The view shows the last [limit] rows of the table in the order of
    their insertion (all rows for a negative limit). *)
Theorem refresh_table_shows_last_rows (db : store) (limit : Z) :
  fst (refresh_table db limit)
  = if (limit <? 0)%Z then db else drop (length db - Z.to_nat limit) db.
Proof.
  unfold refresh_table, fetch_latest_scans. simpl.
  destruct (limit <? 0)%Z; [apply rev_involutive|].
  rewrite firstn_rev. apply rev_involutive.
Qed.

End StoreMore.

(** * Further properties of the label generator *)

Lemma drop_while_length p s : (length (drop_while p s) <= length s)%nat.
Proof.
  induction s as [|c s IH]; simpl; [done|]. destruct (p c); simpl; lia.
Qed.

Lemma lstrip_fixed_head c s : lstrip (c :: s) = c :: s -> py_isspace c = false.
Proof.
  unfold lstrip. simpl. destruct (py_isspace c); [|done]. intros H.
  pose proof (drop_while_length py_isspace s) as Hl. rewrite H in Hl.
  simpl in Hl. lia.
Qed.

Lemma lstrip_take n s : lstrip s = s -> lstrip (take n s) = take n s.
Proof.
  destruct s as [|c s]; [by destruct n|]. intros H%lstrip_fixed_head.
  destruct n; [done|]. unfold lstrip. simpl. by rewrite H.
Qed.

Lemma lstrip_strip s : lstrip (strip s) = strip s.
Proof. unfold strip. by rewrite lstrip_rstrip, lstrip_idem. Qed.

(** X16. The sanitised description has at most 90 characters, holds no line
    feed, no pipe and no equals sign, and does not start with
    whitespace. *)
Theorem desc_clean_sanitized (descripcion : pstr) :
  (length (desc_clean descripcion) <= 90)%nat
  /\ contains c_nl (desc_clean descripcion) = false
  /\ contains c_pipe (desc_clean descripcion) = false
  /\ contains c_eq (desc_clean descripcion) = false
  /\ lstrip (desc_clean descripcion) = desc_clean descripcion.
Proof.
  unfold desc_clean.
  set (t := replace_char c_eq c_minus
              (replace_char c_pipe c_slash (replace_char c_nl c_space descripcion))).
  assert (Hnl : contains c_nl t = false).
  { unfold t. apply contains_replace_other; [done|].
    apply contains_replace_other; [done|]. by apply contains_replace_char. }
  assert (Hpipe : contains c_pipe t = false).
  { unfold t. apply contains_replace_other; [done|].
    by apply contains_replace_char. }
  assert (Heq : contains c_eq t = false).
  { unfold t. by apply contains_replace_char. }
  destruct (90 <? length (strip t))%nat eqn:E.
  - split; [rewrite length_take; lia|].
    repeat split; try (by apply contains_take_false, contains_strip_false).
    apply lstrip_take, lstrip_strip.
  - apply Nat.ltb_ge in E. split; [done|].
    repeat split; try (by apply contains_strip_false). apply lstrip_strip.
Qed.

Lemma format_0d_inj w n m : format_0d w n = format_0d w m -> n = m.
Proof.
  intros H. pose proof (@py_int_format_0d latin1 w n) as Hn.
  rewrite H, (@py_int_format_0d latin1 w m) in Hn. congruence.
Qed.

Lemma payload_qr_inj n m id dc lot fec vto :
  payload_qr n id dc lot fec vto = payload_qr m id dc lot fec vto -> n = m.
Proof.
  unfold payload_qr. intros H. apply app_inv_head in H.
  apply app_inv_tail in H. by apply format_0d_inj in H.
Qed.

(** X17. One run gives [cantidad] payloads, and no two of them are the same
    text: the serials are consecutive numbers and the padded form of a
    number tells it. *)
Theorem payloads_distinct (ultimo : Z) (id descripcion : pstr) (fecha : date)
  (cantidad : nat) :
  length (generar_payloads ultimo id descripcion fecha cantidad) = cantidad
  /\ NoDup (generar_payloads ultimo id descripcion fecha cantidad).
Proof.
  unfold generar_payloads. split; [by rewrite length_map, length_seq|].
  apply NoDup_ListNoDup.
  apply NoDup_map_NoDup_ForallPairs; [|apply seq_NoDup].
  intros i j _ _ H. apply payload_qr_inj in H. lia.
Qed.

Lemma days_in_month_bounds y m : 28 <= days_in_month y m <= 31.
Proof.
  unfold days_in_month. destruct (m =? 2); [destruct (is_leap y); lia|].
  destruct (_ || _); lia.
Qed.

Lemma add_months6_facts (d : date) (Hd : valid_date d = true) :
  let d' := add_months6 d in
  valid_date d' = true
  /\ 12 * year d' + month d' = 12 * year d + month d + 6
  /\ day d' = N.min (days_in_month (year d') (month d')) (day d)
  /\ (day d <= 28 -> day d' = day d).
Proof.
  unfold valid_date in Hd. bools. unfold add_months6.
  destruct (12 <? month d + 6) eqn:E; bools; simpl;
    match goal with
    | |- context [days_in_month ?y ?m] =>
        pose proof (days_in_month_bounds y m)
    end;
    (split; [unfold valid_date; simpl;
             repeat (apply andb_true_intro; split); apply N.leb_le; lia|]);
    repeat split; lia.
Qed.

(** X18. The expiry date is a day of the calendar, six months after the date of
    the label by the count of months; the day of the month is kept, or cut
    to the last day of the month reached. *)
Theorem add_months6_valid (d : date) (Hd : valid_date d = true) :
  let d' := add_months6 d in
  valid_date d' = true
  /\ 12 * year d' + month d' = 12 * year d + month d + 6
  /\ day d' = N.min (days_in_month (year d') (month d')) (day d)
  /\ (day d <= 28 -> day d' = day d).
Proof. exact (add_months6_facts d Hd). Qed.

Lemma pad4_shape_all n :
  n < 10000 ->
  exists a b c d, pad 4 n = [a; b; c; d] /\ forallb is_digit [a; b; c; d] = true.
Proof.
  intros Hn.
  pose proof (forall_below
    (fun n => match pad 4 n with
              | [a; b; c; d] => forallb is_digit [a; b; c; d]
              | _ => false
              end) (100 * 100) ltac:(vm_compute; reflexivity) n
    ltac:(change (N.of_nat (100 * 100)) with 10000; exact Hn)) as H.
  simpl in H. destruct (pad 4 n) as [|a [|b [|c [|d [|? ?]]]]]; try done.
  by exists a, b, c, d.
Qed.

Lemma isoformat_shape_all d :
  year d < 10000 -> month d < 100 -> day d < 100 ->
  iso_shape (isoformat d) = true.
Proof.
  intros Hy Hm Hd. unfold isoformat.
  destruct (pad4_shape_all _ Hy) as [a [b [c [e [-> Hyd]]]]].
  destruct (pad2_shape _ Hm) as [m1 [m2 [-> [? ?]]]].
  destruct (pad2_shape _ Hd) as [d1 [d2 [-> [? ?]]]].
  simpl in *. repeat (apply andb_prop in Hyd as [? Hyd]).
  repeat match goal with
  | H : is_digit _ = true |- _ => rewrite H; clear H
  end. reflexivity.
Qed.

(** X19. For a date of the calendar before the year 9999 the lot is six digits
    and the two dates of the payload have the shape YYYY-MM-DD. *)
Theorem payload_dates_shape (d : date)
  (Hd : valid_date d = true) (Hy : year d < 9999) :
  length (numero_lote d) = 6%nat
  /\ Forall (fun c => is_digit c = true) (numero_lote d)
  /\ iso_shape (isoformat d) = true
  /\ iso_shape (isoformat (add_months6 d)) = true.
Proof.
  destruct (add_months6_facts d Hd) as [Hv [Hm _]].
  unfold valid_date in Hd, Hv. bools.
  pose proof (days_in_month_bounds (year d) (month d)).
  pose proof (days_in_month_bounds (year (add_months6 d)) (month (add_months6 d))).
  assert (Hmod : year d mod 100 < 100) by (by apply N.mod_upper_bound).
  split; [|split; [|split]].
  - unfold numero_lote.
    destruct (pad2_shape (day d) ltac:(lia)) as [a [b [-> _]]].
    destruct (pad2_shape (month d) ltac:(lia)) as [a' [b' [-> _]]].
    by destruct (pad2_shape _ Hmod) as [a'' [b'' [-> _]]].
  - unfold numero_lote. apply Forall_app; split; [|apply Forall_app; split];
      apply zfill_digits, str_N_digits.
  - apply isoformat_shape_all; lia.
  - apply isoformat_shape_all; lia.
Qed.

Section GeneratorMore.
Context `{U : Unicode}.

(** Entries that decode to records with triples new to the table and
    different from one another are all accepted, in order. *)
Lemma scan_all_fresh db entries records :
  Forall2 (fun e r => parse_qr_payload (strip e) = Ok r) entries records ->
  Forall (fun r => bindable r = true) records ->
  NoDup (map triple records) ->
  Forall (fun r => existsb (same_key r) db = false) records ->
  scan_all db entries = db ++ records.
Proof.
  intros H. revert db.
  induction H as [|e r es rs Hr _ IH]; intros db Hbs Hnd Hdb.
  - simpl. by rewrite app_nil_r.
  - rewrite scan_all_cons, (on_scan_return_Ok _ _ _ Hr).
    inversion Hdb as [|? ? Hk Hdb']; subst.
    inversion Hbs as [|? ? Hb Hbs']; subst. rewrite Hk, Hb. simpl.
    simpl in Hnd. apply NoDup_cons in Hnd as [Hnot Hnd].
    rewrite IH, <- app_assoc; [done|done|done|].
    apply Forall_forall. intros r' Hr'. rewrite existsb_app. simpl.
    rewrite Forall_forall in Hdb'. rewrite (Hdb' r' Hr'), orb_false_r. simpl.
    destruct (same_key r' r) eqn:E; [|done].
    apply same_key_triple in E. destruct Hnot. rewrite <- E.
    by apply list_elem_of_fmap_2.
Qed.

Lemma plain_encodable s :
  Forall (fun c => plain c = true) s -> encodable s = true.
Proof.
  induction 1 as [|c s Hc _ IH]; [done|].
  unfold encodable in *. simpl. rewrite negb_orb, IH, andb_true_r.
  apply negb_true_iff. unfold plain, is_digit, c_minus in Hc.
  unfold is_surrogate, in_range.
  destruct (55296 <=? c) eqn:E; [|done]. bools; lia.
Qed.

Lemma numero_lote_encodable d : encodable (numero_lote d) = true.
Proof.
  apply plain_encodable. unfold numero_lote.
  apply Forall_app; split; [apply pad_plain|].
  apply Forall_app; split; apply pad_plain.
Qed.

Lemma isoformat_encodable d : encodable (isoformat d) = true.
Proof.
  apply plain_encodable. unfold isoformat.
  apply Forall_app; split; [apply pad_plain|]. constructor; [done|].
  apply Forall_app; split; [apply pad_plain|]. constructor; [done|].
  apply pad_plain.
Qed.

(** X20. From the printer to the table: when the product id is clean, the
    sanitised description is not empty and does not end in whitespace,
    neither has a lone surrogate, the serials of the run are within the
    signed 64-bit range, and the table has no row of this product and lot,
    scanning the labels of one run adds exactly [cantidad] rows; scanning
    the second copy of each label adds none. *)
Theorem generated_labels_all_accepted (db : store) (ultimo : Z)
  (id descripcion : pstr) (fecha : date) (cantidad : nat)
  (Hid : clean id)
  (Hdesc : desc_clean descripcion <> [])
  (Hstrip : strip (desc_clean descripcion) = desc_clean descripcion)
  (Hid_enc : encodable id = true)
  (Hdesc_enc : encodable (desc_clean descripcion) = true)
  (Hlo : (- 2 ^ 63 <= ultimo + 1)%Z)
  (Hhi : (ultimo + Z.of_nat cantidad < 2 ^ 63)%Z)
  (Hnew : Forall (fun row => ~ (id_producto row = id
                                /\ lote row = numero_lote fecha)) db) :
  let labels := generar_payloads ultimo id descripcion fecha cantidad in
  length (scan_all db labels) = (length db + cantidad)%nat
  /\ scan_all db (labels ++ labels) = scan_all db labels.
Proof.
  intros labels.
  set (rec := fun i : nat =>
    {| descripcion := desc_clean descripcion;
       nro_serie := ultimo + Z.of_nat i;
       id_producto := id;
       lote := numero_lote fecha;
       creacion := isoformat fecha;
       vencimiento := isoformat (add_months6 fecha) |}).
  assert (E : scan_all db labels = db ++ map rec (seq 1 cantidad)).
  { apply scan_all_fresh.
    - unfold labels, generar_payloads. generalize (seq 1 cantidad). intros l.
      induction l as [|i l IH]; simpl; constructor; [|done].
      rewrite parse_qr_payload_strip. apply parse_payload_qr; try done.
      + split; [done|]. split; [apply desc_clean_no_pipe|done].
      + apply numero_lote_clean.
      + apply isoformat_clean.
      + apply isoformat_clean.
    - apply Forall_forall. intros r [i [-> Hi]]%list_elem_of_fmap.
      apply list_elem_of_In, in_seq in Hi.
      unfold bindable, rec. simpl.
      rewrite Hid_enc, Hdesc_enc, numero_lote_encodable, !isoformat_encodable.
      rewrite !andb_true_r. unfold int64.
      apply andb_true_intro. split; [apply Z.leb_le|apply Z.ltb_lt]; lia.
    - rewrite map_map. apply NoDup_ListNoDup.
      apply NoDup_map_NoDup_ForallPairs; [|apply seq_NoDup].
      intros i j _ _ [= H]. lia.
    - apply Forall_forall. intros r [i [-> _]]%list_elem_of_fmap.
      destruct (existsb (same_key (rec i)) db) eqn:Ek; [|done].
      apply existsb_exists in Ek as [row [Hrow Hk]].
      apply same_key_true in Hk as [Hk1 [_ Hk3]]. simpl in Hk1, Hk3.
      rewrite Forall_forall in Hnew. apply list_elem_of_In in Hrow.
      by destruct (Hnew row Hrow). }
  split.
  - by rewrite E, length_app, length_map, length_seq.
  - unfold scan_all at 1. rewrite foldl_app. fold (scan_all db labels).
    fold (scan_all (scan_all db labels) labels).
    apply scan_all_nothing_new. intros e r Hin Hr. by eapply scan_all_has_key.
Qed.

Lemma forall_below3 (P : N -> N -> N -> bool) (a b c : nat) :
  forallb (fun x =>
    forallb (fun y =>
      forallb (P x y) (map N.of_nat (seq 0 c)))
      (map N.of_nat (seq 0 b)))
    (map N.of_nat (seq 0 a)) = true ->
  forall x y z, x < N.of_nat a -> y < N.of_nat b -> z < N.of_nat c ->
    P x y z = true.
Proof.
  intros H x y z Hx Hy Hz.
  pose proof (forall_below _ a H x Hx) as H1. simpl in H1.
  pose proof (forall_below _ b H1 y Hy) as H2. simpl in H2.
  exact (forall_below _ c H2 z Hz).
Qed.

(** X21. The date printed on a label reads back: for a day of the calendar of
    the years 1969 to 2068, [strptime] reads the printed day/month/year as
    that day, and [normalize_date] gives the date the payload carries. *)
Theorem printed_date_reads_back (d : date)
  (Hd : valid_date d = true) (Hy : 1969 <= year d <= 2068) :
  strptime_dmy (fecha_str d) = Some d
  /\ normalize_date (fecha_str d) = isoformat d.
Proof.
  pose proof (days_in_month_bounds (year d) (month d)) as Hb.
  pose proof Hd as Hd'. unfold valid_date in Hd'. bools.
  pose proof (forall_below3 date_round_trip_check 100 13 32
                ltac:(vm_compute; reflexivity)
                (year d - 1969) (month d) (day d)
                ltac:(lia) ltac:(lia) ltac:(lia)) as Hchk.
  unfold date_round_trip_check in Hchk.
  replace (1969 + (year d - 1969)) with (year d) in Hchk by lia.
  destruct d as [y m dd]. simpl in *. rewrite Hd in Hchk.
  apply andb_prop in Hchk as [Hn Hs]. apply bool_decide_eq_true in Hn.
  split; [|done].
  destruct (strptime_dmy _) as [[y' m' dd']|]; [|done]. simpl in Hs.
  bools. by subst.
Qed.

End GeneratorMore.

(** ** The further properties at sample inputs *)

Section MoreSamples.
#[local] Existing Instance latin1.

Lemma decode_success_populated_witness :
  parse_qr_payload ex_legacy = Ok ex_legacy_record /\ populated ex_legacy_record.
Proof.
  assert (H : parse_qr_payload ex_legacy = Ok ex_legacy_record)
    by (vm_compute; reflexivity).
  split; [exact H|]. exact (decode_success_populated ex_legacy ex_legacy_record H).
Defined.

Lemma primary_failures_witness :
  (contains c_pipe ex_bad_serial && contains c_eq ex_bad_serial = true
   /\ parse_qr_payload ex_bad_serial = Raise (ValueError (InvalidSerial (str "12a"))))
  /\ py_int (str "12a") = None.
Proof.
  assert (H1 : contains c_pipe ex_bad_serial && contains c_eq ex_bad_serial = true)
    by (vm_compute; reflexivity).
  assert (H2 : parse_qr_payload ex_bad_serial
               = Raise (ValueError (InvalidSerial (str "12a"))))
    by (vm_compute; reflexivity).
  split; [exact (conj H1 H2)|].
  destruct (primary_failures ex_bad_serial _ H1 H2) as [[Hm _]|[_ [_ H]]].
  - exfalso. apply Hm. vm_compute. reflexivity.
  - replace (str "12a") with (fields ex_bad_serial !!! k_NS)
      by (vm_compute; reflexivity). exact H.
Defined.

Lemma other_segments_ignored_witness :
  (no_sep c_pipe (ex_segs_head ++ str "XTRA=1" :: ex_segs_tail)
   /\ (2 <= length (ex_segs_head ++ ex_segs_tail))%nat
   /\ existsb (contains c_eq) (ex_segs_head ++ ex_segs_tail) = true
   /\ forallb (fun k => negb (has_key k (str "XTRA=1"))) required = true)
  /\ parse_qr_payload (join c_pipe (ex_segs_head ++ str "XTRA=1" :: ex_segs_tail))
     = parse_qr_payload (join c_pipe (ex_segs_head ++ ex_segs_tail)).
Proof.
  assert (H1 : no_sep c_pipe (ex_segs_head ++ str "XTRA=1" :: ex_segs_tail))
    by (apply no_sep_check; vm_compute; reflexivity).
  assert (H2 : (2 <= length (ex_segs_head ++ ex_segs_tail))%nat)
    by (vm_compute; lia).
  assert (H3 : existsb (contains c_eq) (ex_segs_head ++ ex_segs_tail) = true)
    by (vm_compute; reflexivity).
  assert (H4 : forallb (fun k => negb (has_key k (str "XTRA=1"))) required = true)
    by (vm_compute; reflexivity).
  split; [exact (conj H1 (conj H2 (conj H3 H4)))|].
  exact (other_segments_ignored ex_segs_head ex_segs_tail (str "XTRA=1")
           H1 H2 H3 H4).
Defined.

Lemma trimmed_pairs_decide_witness :
  (no_sep c_pipe ex_segs /\ no_sep c_pipe ex_spaced_segs
   /\ (2 <= length ex_segs)%nat
   /\ existsb (contains c_eq) ex_segs = true
   /\ map key_value ex_segs = map key_value ex_spaced_segs)
  /\ parse_qr_payload (join c_pipe ex_segs)
     = parse_qr_payload (join c_pipe ex_spaced_segs).
Proof.
  assert (H1 : no_sep c_pipe ex_segs)
    by (apply no_sep_check; vm_compute; reflexivity).
  assert (H2 : no_sep c_pipe ex_spaced_segs)
    by (apply no_sep_check; vm_compute; reflexivity).
  assert (H3 : (2 <= length ex_segs)%nat) by (vm_compute; lia).
  assert (H4 : existsb (contains c_eq) ex_segs = true) by (vm_compute; reflexivity).
  assert (H5 : map key_value ex_segs = map key_value ex_spaced_segs)
    by (vm_compute; reflexivity).
  split; [exact (conj H1 (conj H2 (conj H3 (conj H4 H5))))|].
  exact (trimmed_pairs_decide ex_segs ex_spaced_segs H1 H2 H3 H4 H5).
Defined.

Lemma leading_zeros_keep_value_witness :
  (contains c_pipe ex_primary && contains c_eq ex_primary = true
   /\ fields ex_primary !! k_NS = Some (repeat c_zero 5 ++ str_N 1)
   /\ parse_qr_payload ex_primary = Ok (ex_record 1))
  /\ nro_serie (ex_record 1) = Z.of_N 1.
Proof.
  assert (H1 : contains c_pipe ex_primary && contains c_eq ex_primary = true)
    by (vm_compute; reflexivity).
  assert (H2 : fields ex_primary !! k_NS = Some (repeat c_zero 5 ++ str_N 1))
    by (vm_compute; reflexivity).
  assert (H3 : parse_qr_payload ex_primary = Ok (ex_record 1))
    by (vm_compute; reflexivity).
  split; [exact (conj H1 (conj H2 H3))|].
  exact (leading_zeros_keep_value ex_primary (ex_record 1) 5 1 H1 H2 H3).
Defined.

Lemma pick_first_line_wins_witness :
  (Forall (fun x => startswith (lower x) (lower p_lote) = false) [str "Detergente X"]
   /\ startswith (lower (str "Lote: 100125")) (lower p_lote) = true
   /\ split_once c_colon (str "Lote: 100125") = Some (str "Lote", str " 100125"))
  /\ pick ex_lote_lines p_lote = Ok (Some (strip (str " 100125"))).
Proof.
  assert (H1 : Forall (fun x => startswith (lower x) (lower p_lote) = false)
                 [str "Detergente X"]).
  { constructor; [vm_compute; reflexivity|constructor]. }
  assert (H2 : startswith (lower (str "Lote: 100125")) (lower p_lote) = true)
    by (vm_compute; reflexivity).
  assert (H3 : split_once c_colon (str "Lote: 100125")
               = Some (str "Lote", str " 100125")) by (vm_compute; reflexivity).
  split; [exact (conj H1 (conj H2 H3))|].
  exact (pick_first_line_wins [str "Detergente X"] [str "Lote: 999"]
           (str "Lote: 100125") p_lote (str "Lote") (str " 100125") H1 H2 H3).
Defined.

Lemma IndexError_only_without_colon_witness :
  parse_qr_payload ex_legacy_no_colon = Raise IndexError
  /\ exists l p, In l (legacy_lines (strip ex_legacy_no_colon))
       /\ In p legacy_prefixes
       /\ startswith (lower l) (lower p) = true
       /\ contains c_colon l = false.
Proof.
  assert (H : parse_qr_payload ex_legacy_no_colon = Raise IndexError)
    by (vm_compute; reflexivity).
  split; [exact H|].
  exact (proj2 (proj2 (IndexError_only_without_colon ex_legacy_no_colon H))).
Defined.

Lemma legacy_description_is_first_free_line_witness :
  (contains c_pipe ex_legacy && contains c_eq ex_legacy = false
   /\ parse_qr_payload ex_legacy = Ok ex_legacy_record)
  /\ exists pre post,
       legacy_lines (strip ex_legacy) = pre ++ descripcion ex_legacy_record :: post
       /\ Forall (fun l => known_line l = true) pre
       /\ known_line (descripcion ex_legacy_record) = false.
Proof.
  assert (H1 : contains c_pipe ex_legacy && contains c_eq ex_legacy = false)
    by (vm_compute; reflexivity).
  assert (H2 : parse_qr_payload ex_legacy = Ok ex_legacy_record)
    by (vm_compute; reflexivity).
  split; [exact (conj H1 H2)|].
  exact (legacy_description_is_first_free_line ex_legacy ex_legacy_record H1 H2).
Defined.

Lemma unique_triples_kept_witness :
  NoDup (map triple [ex_record 1; ex_record 2])
  /\ NoDup (map triple (scan_all [ex_record 1; ex_record 2]
                          [ex_primary; ex_third; ex_same_triple])).
Proof.
  assert (H : NoDup (map triple [ex_record 1; ex_record 2])).
  { apply NoDup_ListNoDup. constructor.
    - intros [E|[]]. discriminate E.
    - constructor; [intros []|constructor]. }
  split; [exact H|].
  exact (unique_triples_kept [ex_record 1; ex_record 2]
           [ex_primary; ex_third; ex_same_triple] H).
Defined.

Lemma rejected_entries_leave_table_witness :
  (forallb py_isspace [c_space; c_nl] = true
   /\ strip ex_missing_vto <> []
   /\ parse_qr_payload ex_missing_vto
      = Raise (ValueError (MissingFields [k_VTO])))
  /\ on_scan_return [ex_record 1] [c_space; c_nl] = ([ex_record 1], None)
  /\ on_scan_return [ex_record 1] ex_missing_vto
     = ([ex_record 1], Some (Raise (ValueError (MissingFields [k_VTO])))).
Proof.
  assert (H1 : forallb py_isspace [c_space; c_nl] = true) by reflexivity.
  assert (H2 : strip ex_missing_vto <> []) by (vm_compute; discriminate).
  assert (H3 : parse_qr_payload ex_missing_vto
               = Raise (ValueError (MissingFields [k_VTO])))
    by (vm_compute; reflexivity).
  split; [exact (conj H1 (conj H2 H3))|]. split.
  - exact (proj1 (rejected_entries_leave_table [ex_record 1] [c_space; c_nl]) H1).
  - exact (proj2 (rejected_entries_leave_table [ex_record 1] ex_missing_vto)
             _ H2 H3).
Defined.

Lemma scanner_whitespace_ignored_witness :
  (forallb py_isspace [c_space] = true /\ forallb py_isspace [c_cr; c_nl] = true)
  /\ on_scan_return [] ([c_space] ++ ex_primary ++ [c_cr; c_nl])
     = on_scan_return [] ex_primary.
Proof.
  split; [split; reflexivity|].
  exact (scanner_whitespace_ignored [] [c_space] ex_primary [c_cr; c_nl]
           eq_refl eq_refl).
Defined.

Lemma accepted_scan_is_latest_witness :
  (on_scan_return [ex_record 2] ex_primary
   = ([ex_record 2; ex_record 1], Some (Ok (OK, msg_ok (ex_record 1))))
   /\ (1 <= 5)%Z)
  /\ exists r, parse_qr_payload ex_primary = Ok r
       /\ [ex_record 2; ex_record 1] = [ex_record 2] ++ [r]
       /\ fetch_latest_scans [ex_record 2; ex_record 1] 5
          = r :: fetch_latest_scans [ex_record 2] (5 - 1).
Proof.
  assert (H1 : on_scan_return [ex_record 2] ex_primary
               = ([ex_record 2; ex_record 1],
                  Some (Ok (OK, msg_ok (ex_record 1)))))
    by (vm_compute; reflexivity).
  assert (H2 : (1 <= 5)%Z) by lia.
  split; [exact (conj H1 H2)|].
  exact (accepted_scan_is_latest [ex_record 2] [ex_record 2; ex_record 1]
           ex_primary (msg_ok (ex_record 1)) 5 H1 H2).
Defined.

Lemma add_months6_valid_witness :
  valid_date ex_end_of_august = true
  /\ add_months6 ex_end_of_august = {| year := 2027; month := 2; day := 28 |}
  /\ valid_date (add_months6 ex_end_of_august) = true.
Proof.
  assert (H : valid_date ex_end_of_august = true) by reflexivity.
  split; [exact H|]. split; [reflexivity|].
  exact (proj1 (add_months6_valid ex_end_of_august H)).
Defined.

Lemma payload_dates_shape_witness :
  (valid_date ex_date = true /\ year ex_date < 9999)
  /\ length (numero_lote ex_date) = 6%nat
  /\ Forall (fun c => is_digit c = true) (numero_lote ex_date)
  /\ iso_shape (isoformat ex_date) = true
  /\ iso_shape (isoformat (add_months6 ex_date)) = true.
Proof.
  assert (H1 : valid_date ex_date = true) by reflexivity.
  assert (H2 : year ex_date < 9999) by (vm_compute; reflexivity).
  split; [exact (conj H1 H2)|]. exact (payload_dates_shape ex_date H1 H2).
Defined.

Lemma generated_labels_all_accepted_witness :
  (clean (str "12")
   /\ desc_clean (str "Bolsa 5kg") <> []
   /\ strip (desc_clean (str "Bolsa 5kg")) = desc_clean (str "Bolsa 5kg")
   /\ encodable (str "12") = true
   /\ encodable (desc_clean (str "Bolsa 5kg")) = true
   /\ (- 2 ^ 63 <= 0 + 1)%Z
   /\ (0 + Z.of_nat 3 < 2 ^ 63)%Z
   /\ Forall (fun row => ~ (id_producto row = str "12"
                            /\ lote row = numero_lote ex_date))
        [ex_legacy_record])
  /\ length (scan_all [ex_legacy_record]
               (generar_payloads 0 (str "12") (str "Bolsa 5kg") ex_date 3))
     = (1 + 3)%nat.
Proof.
  assert (H1 : clean (str "12")).
  { split; [discriminate|]. split; vm_compute; reflexivity. }
  assert (H2 : desc_clean (str "Bolsa 5kg") <> []) by (vm_compute; discriminate).
  assert (H3 : strip (desc_clean (str "Bolsa 5kg")) = desc_clean (str "Bolsa 5kg"))
    by (vm_compute; reflexivity).
  assert (H4 : Forall (fun row => ~ (id_producto row = str "12"
                                     /\ lote row = numero_lote ex_date))
                 [ex_legacy_record]).
  { constructor; [|constructor]. intros [E _]. vm_compute in E. discriminate E. }
  assert (H5 : encodable (str "12") = true) by (vm_compute; reflexivity).
  assert (H6 : encodable (desc_clean (str "Bolsa 5kg")) = true)
    by (vm_compute; reflexivity).
  assert (H7 : (- 2 ^ 63 <= 0 + 1)%Z) by lia.
  assert (H8 : (0 + Z.of_nat 3 < 2 ^ 63)%Z) by lia.
  split;
    [exact (conj H1 (conj H2 (conj H3 (conj H5 (conj H6 (conj H7 (conj H8 H4)))))))|].
  exact (proj1 (generated_labels_all_accepted [ex_legacy_record] 0 (str "12")
                  (str "Bolsa 5kg") ex_date 3 H1 H2 H3 H5 H6 H7 H8 H4)).
Defined.

Lemma unbindable_entries_leave_table_witness :
  (parse_qr_payload (strip ex_serial_2_63) = Ok (ex_record (2 ^ 63))
   /\ bindable (ex_record (2 ^ 63)) = false)
  /\ exists e,
       save_scan [ex_legacy_record] (strip ex_serial_2_63) = Raise e
       /\ on_scan_return [ex_legacy_record] ex_serial_2_63
          = ([ex_legacy_record], Some (Raise e))
       /\ (e = OverflowError \/ e = UnicodeEncodeError)
       /\ (encodable (descripcion (ex_record (2 ^ 63))) = false ->
           e = UnicodeEncodeError)
       /\ (encodable (descripcion (ex_record (2 ^ 63))) = true ->
           int64 (nro_serie (ex_record (2 ^ 63))) = false ->
           e = OverflowError).
Proof.
  assert (H1 : parse_qr_payload (strip ex_serial_2_63) = Ok (ex_record (2 ^ 63)))
    by (vm_compute; reflexivity).
  assert (H2 : bindable (ex_record (2 ^ 63)) = false)
    by (vm_compute; reflexivity).
  split; [exact (conj H1 H2)|].
  exact (unbindable_entries_leave_table [ex_legacy_record] ex_serial_2_63
           (ex_record (2 ^ 63)) H1 H2).
Defined.

Lemma printed_date_reads_back_witness :
  (valid_date ex_date = true /\ 1969 <= year ex_date <= 2068)
  /\ strptime_dmy (fecha_str ex_date) = Some ex_date
  /\ normalize_date (fecha_str ex_date) = isoformat ex_date.
Proof.
  assert (H1 : valid_date ex_date = true) by reflexivity.
  assert (H2 : 1969 <= year ex_date <= 2068) by (vm_compute; split; discriminate).
  split; [exact (conj H1 H2)|]. exact (printed_date_reads_back ex_date H1 H2).
Defined.

End MoreSamples.
